(** * llm-chatbot embed widget: SSE client, session controller, markdown renderer

    A shallow embedding of the three TypeScript classes of [embed/src]:
    - [MarkdownRenderer] (markdown-renderer.ts): [render], [parse], [sanitize];
    - [SSEClient] (sse-client.ts): [stream], [abort], [handleEvent];
    - [SpoChatbot] (spo-chatbot.ts) together with the parts of [ChatUI]
      (chat-ui.ts) and [ApiClient] (api-client.ts) it drives.

    JavaScript strings are sequences of UTF-16 code units; they are modelled
    as [list N].  Regular expressions are modelled by a backtracking matcher
    that follows the ECMAScript pattern semantics (continuation style), so
    every regular expression of the source appears below as a syntax tree
    that can be compared with the literal in the TypeScript file. *)

From Stdlib Require Import String Ascii NArith Bool Arith Lia List.
Import ListNotations.
Local Open Scope N_scope.

(* ===================================================================== *)
(** ** JavaScript strings *)
(* ===================================================================== *)

Module JS.

(** A string is a list of UTF-16 code units. *)
Definition jsstring := list N.

(** Literals of the source are written as Rocq strings (UTF-8 bytes) and
    decoded to code units by [js]. *)
Definition cont (b : N) : N := N.land b 63.

Definition surrogates (cp : N) : jsstring :=
  if cp <? 65536 then [cp]
  else let v := cp - 65536 in
       [55296 + N.shiftr v 10; 56320 + N.land v 1023].

Fixpoint utf8_decode (bs : list N) : jsstring :=
  match bs with
  | [] => []
  | b :: r1 =>
    if b <? 128 then b :: utf8_decode r1
    else if b <? 192 then 65533 :: utf8_decode r1
    else match r1 with
      | [] => [65533]
      | b2 :: r2 =>
        if b <? 224 then
          (N.shiftl (N.land b 31) 6 + cont b2) :: utf8_decode r2
        else match r2 with
          | [] => [65533]
          | b3 :: r3 =>
            if b <? 240 then
              (N.shiftl (N.land b 15) 12 + N.shiftl (cont b2) 6 + cont b3)
                :: utf8_decode r3
            else match r3 with
              | [] => [65533]
              | b4 :: r4 =>
                surrogates (N.shiftl (N.land b 7) 18 + N.shiftl (cont b2) 12
                            + N.shiftl (cont b3) 6 + cont b4)
                  ++ utf8_decode r4
              end
          end
      end
  end.

Definition js (s : string) : jsstring :=
  utf8_decode (map N_of_ascii (list_ascii_of_string s)).

(** Strict equality [===] on strings. *)
Fixpoint eqb (a b : jsstring) : bool :=
  match a, b with
  | [], [] => true
  | x :: a', y :: b' => (x =? y) && eqb a' b'
  | _, _ => false
  end.

(** [s.startsWith(p)] *)
Fixpoint startsWith (s p : jsstring) : bool :=
  match p, s with
  | [], _ => true
  | _ :: _, [] => false
  | x :: p', y :: s' => (x =? y) && startsWith s' p'
  end.

(** [s.slice(n)] for a non-negative [n]. *)
Definition slice (n : nat) (s : jsstring) : jsstring := skipn n s.

(** [s.includes(p)] *)
Fixpoint includes (s p : jsstring) : bool :=
  startsWith s p ||
  match s with
  | [] => false
  | _ :: s' => includes s' p
  end.

(** ECMAScript LineTerminator code points: LF, CR, LS, PS. *)
Definition isLineTerminator (c : N) : bool :=
  (c =? 10) || (c =? 13) || (c =? 8232) || (c =? 8233).

(** ECMAScript WhiteSpace plus LineTerminator: what [trim] removes and what
    [\s] matches. *)
Definition isWhiteSpace (c : N) : bool :=
  (c =? 9) || (c =? 11) || (c =? 12) || (c =? 32) || (c =? 160)
  || (c =? 5760) || ((8192 <=? c) && (c <=? 8202)) || (c =? 8239)
  || (c =? 8287) || (c =? 12288) || (c =? 65279)
  || isLineTerminator c.

Fixpoint trimStart (s : jsstring) : jsstring :=
  match s with
  | c :: s' => if isWhiteSpace c then trimStart s' else s
  | [] => []
  end.

Definition trimEnd (s : jsstring) : jsstring := rev (trimStart (rev s)).

(** [s.trim()] *)
Definition trim (s : jsstring) : jsstring := trimEnd (trimStart s).

(** [s.split(sep)] for a separator of one code unit; the result is never
    empty: the empty string splits into one empty piece. *)
Fixpoint split (sep : N) (s : jsstring) : list jsstring :=
  match s with
  | [] => [[]]
  | c :: s' =>
    if c =? sep then [] :: split sep s'
    else match split sep s' with
         | h :: t => (c :: h) :: t
         | [] => [[c]]
         end
  end.

(** [xs.join(sep)] *)
Fixpoint join (sep : jsstring) (xs : list jsstring) : jsstring :=
  match xs with
  | [] => []
  | [x] => x
  | x :: rest => x ++ sep ++ join sep rest
  end.

(** Decimal rendering of a non-negative integer, as template literals do
    for [response.status]. *)
Fixpoint digits (fuel : nat) (n : N) (acc : jsstring) : jsstring :=
  match fuel with
  | O => acc
  | S f =>
    let acc' := (48 + n mod 10) :: acc in
    if n <? 10 then acc' else digits f (n / 10) acc'
  end.

Definition numberToString (n : N) : jsstring :=
  digits (S (N.to_nat (N.log2 n))) n [].

(** The line feed, [\n]. *)
Definition LF : jsstring := [10].

End JS.
Import JS.

(* ===================================================================== *)
(** ** Regular expressions *)
(* ===================================================================== *)

Module RegExp.

(** Members of a character class. *)
Inductive class_item :=
| CChar (c : N)                 (* a single character *)
| CRange (lo hi : N)            (* [lo-hi] *)
| CSpace                        (* \s *)
| CNotSpace                     (* \S *)
| CWord                         (* \w *)
| CDigit.                       (* \d *)

(** Pattern syntax, restricted to the constructs the source uses. *)
Inductive regex :=
| Eps
| Lit (c : N)                                   (* a pattern character *)
| Dot                                           (* . *)
| Class (negated : bool) (items : list class_item)
| Seq (a b : regex)
| Quant (min : nat) (max : option nat) (greedy : bool) (r : regex)
| Group (n : nat) (r : regex)                   (* n-th capturing group *)
| Bol                                           (* ^ *)
| Eol                                           (* $ *)
| WordBoundary.                                 (* \b *)

Record flags := { ignoreCase : bool; multiline : bool }.

(** Matcher state: the input split at the current index (the part before
    it reversed) and the captures recorded so far. *)
Record mstate := {
  before : jsstring;
  after : jsstring;
  caps : list (nat * jsstring)
}.

Definition isDigit (c : N) : bool := (48 <=? c) && (c <=? 57).
Definition isUpper (c : N) : bool := (65 <=? c) && (c <=? 90).
Definition isLower (c : N) : bool := (97 <=? c) && (c <=? 122).
Definition isWordChar (c : N) : bool :=
  isUpper c || isLower c || isDigit c || (c =? 95).

Definition toUpper (c : N) : N := if isLower c then c - 32 else c.
Definition toLower (c : N) : N := if isUpper c then c + 32 else c.

Definition in_item (it : class_item) (c : N) : bool :=
  match it with
  | CChar d => c =? d
  | CRange lo hi => (lo <=? c) && (c <=? hi)
  | CSpace => isWhiteSpace c
  | CNotSpace => negb (isWhiteSpace c)
  | CWord => isWordChar c
  | CDigit => isDigit c
  end.

(** Without the [u] flag, Canonicalize never folds a character outside
    ASCII onto an ASCII one, and every pattern of the source that carries
    the [i] flag has ASCII letters only; comparing modulo ASCII case is
    therefore what [i] does here. *)
Definition in_class (fl : flags) (items : list class_item) (c : N) : bool :=
  existsb (fun it =>
    in_item it c ||
    (ignoreCase fl && (in_item it (toUpper c) || in_item it (toLower c))))
    items.

Definition lit_match (fl : flags) (p c : N) : bool :=
  if ignoreCase fl then toUpper p =? toUpper c else p =? c.

Definition at_bol (fl : flags) (x : mstate) : bool :=
  match before x with
  | [] => true
  | c :: _ => multiline fl && isLineTerminator c
  end.

Definition at_eol (fl : flags) (x : mstate) : bool :=
  match after x with
  | [] => true
  | c :: _ => multiline fl && isLineTerminator c
  end.

Definition word_before (x : mstate) : bool :=
  match before x with [] => false | c :: _ => isWordChar c end.
Definition word_after (x : mstate) : bool :=
  match after x with [] => false | c :: _ => isWordChar c end.

(** Consume one character satisfying [p]. *)
Definition step (p : N -> bool) (x : mstate)
    (k : mstate -> option mstate) : option mstate :=
  match after x with
  | c :: rest =>
    if p c then k {| before := c :: before x; after := rest; caps := caps x |}
    else None
  | [] => None
  end.

Definition max_zero (mx : option nat) : bool :=
  match mx with Some O => true | _ => false end.
Definition max_pred (mx : option nat) : option nat :=
  match mx with Some n => Some (pred n) | None => None end.

(** The backtracking matcher: [m fl r x k] matches [r] at [x] and passes
    the state reached to the continuation [k]; [None] is failure.  The
    [Quant] case is RepeatMatcher of the language definition: an iteration
    past the minimum that consumes nothing is rejected, so the iterations
    are bounded by the remaining input.  No group of the source sits inside
    a quantifier, so captures need no reset between iterations. *)
Fixpoint m (fl : flags) (r : regex) (x : mstate)
    (k : mstate -> option mstate) {struct r} : option mstate :=
  match r with
  | Eps => k x
  | Lit p => step (lit_match fl p) x k
  | Dot => step (fun c => negb (isLineTerminator c)) x k
  | Class neg items => step (fun c => xorb neg (in_class fl items c)) x k
  | Seq a b => m fl a x (fun y => m fl b y k)
  | Group n r' =>
    m fl r' x (fun y =>
      let text := firstn (length (after x) - length (after y)) (after x) in
      k {| before := before y; after := after y;
           caps := (n, text) :: caps y |})
  | Bol => if at_bol fl x then k x else None
  | Eol => if at_eol fl x then k x else None
  | WordBoundary =>
    if xorb (word_before x) (word_after x) then k x else None
  | Quant mn mx greedy r' =>
    (fix rep (fuel : nat) (mn : nat) (mx : option nat) (x : mstate)
         (k : mstate -> option mstate) {struct fuel} : option mstate :=
       match fuel with
       | O => None
       | S fuel' =>
         if max_zero mx then k x
         else
           let d := fun y : mstate =>
             if (Nat.eqb mn 0) &&
                (Nat.eqb (length (after y)) (length (after x)))
             then None
             else rep fuel' (pred mn) (max_pred mx) y k in
           if negb (Nat.eqb mn 0) then m fl r' x d
           else if greedy then
             match m fl r' x d with
             | Some z => Some z
             | None => k x
             end
           else
             match k x with
             | Some z => Some z
             | None => m fl r' x d
             end
       end) (S (mn + length (after x)))%nat mn mx x k
  end.

(** Value of the [n]-th capture; an unset capture reads as the empty
    string wherever the source uses it. *)
Fixpoint capture (n : nat) (cs : list (nat * jsstring)) : jsstring :=
  match cs with
  | [] => []
  | (i, t) :: rest => if Nat.eqb i n then t else capture n rest
  end.

(** A match attempt at the current index: the matched text, the captures
    and the state after the match. *)
Definition match_here (fl : flags) (r : regex) (bef aft : jsstring)
    : option (jsstring * list (nat * jsstring) * mstate) :=
  match m fl r {| before := bef; after := aft; caps := [] |} Some with
  | Some y =>
    Some (firstn (length aft - length (after y)) aft, caps y, y)
  | None => None
  end.

(** [re.test(s)]: is there a match starting at some index? *)
Fixpoint test_from (fl : flags) (r : regex) (bef aft : jsstring) : bool :=
  match match_here fl r bef aft with
  | Some _ => true
  | None =>
    match aft with
    | [] => false
    | c :: rest => test_from fl r (c :: bef) rest
    end
  end.

Definition test (fl : flags) (r : regex) (s : jsstring) : bool :=
  test_from fl r [] s.

(** [s.replace(re, f)] with the [g] flag: every match, left to right and
    without overlap, is replaced by [f match captures]. *)
Fixpoint replace_from (fuel : nat) (fl : flags) (r : regex)
    (f : jsstring -> list (nat * jsstring) -> jsstring)
    (bef aft : jsstring) : jsstring :=
  match fuel with
  | O => aft
  | S fuel' =>
    match match_here fl r bef aft with
    | Some (matched, cs, y) =>
      match matched with
      | [] =>
        f matched cs ++
        match aft with
        | [] => []
        | c :: rest => c :: replace_from fuel' fl r f (c :: bef) rest
        end
      | _ :: _ =>
        f matched cs ++ replace_from fuel' fl r f (before y) (after y)
      end
    | None =>
      match aft with
      | [] => []
      | c :: rest => c :: replace_from fuel' fl r f (c :: bef) rest
      end
    end
  end.

Definition replaceAll (fl : flags) (r : regex)
    (f : jsstring -> list (nat * jsstring) -> jsstring) (s : jsstring)
    : jsstring :=
  replace_from (S (length s)) fl r f [] s.

(** [s.replace(re, f)] without the [g] flag: the first match only. *)
Fixpoint replaceFirst_from (fl : flags) (r : regex)
    (f : jsstring -> list (nat * jsstring) -> jsstring)
    (bef aft : jsstring) : jsstring :=
  match match_here fl r bef aft with
  | Some (matched, cs, y) => f matched cs ++ after y
  | None =>
    match aft with
    | [] => []
    | c :: rest => c :: replaceFirst_from fl r f (c :: bef) rest
    end
  end.

Definition replaceFirst (fl : flags) (r : regex)
    (f : jsstring -> list (nat * jsstring) -> jsstring) (s : jsstring)
    : jsstring :=
  replaceFirst_from fl r f [] s.

(** Replacement templates: [$$], [$&] and [$1]..[$9]; any other text is
    copied. *)
Fixpoint template (t : jsstring) (matched : jsstring)
    (cs : list (nat * jsstring)) : jsstring :=
  match t with
  | [] => []
  | c :: rest =>
    if c =? 36 then
      match rest with
      | [] => [c]
      | d :: rest' =>
        if d =? 36 then 36 :: template rest' matched cs
        else if d =? 38 then matched ++ template rest' matched cs
        else if (49 <=? d) && (d <=? 57)
        then capture (N.to_nat (d - 48)) cs ++ template rest' matched cs
        else c :: template rest matched cs
      end
    else c :: template rest matched cs
  end.

(** Sequence of pattern characters. *)
Fixpoint lits (s : jsstring) : regex :=
  match s with
  | [] => Eps
  | [c] => Lit c
  | c :: rest => Seq (Lit c) (lits rest)
  end.

Fixpoint seq (rs : list regex) : regex :=
  match rs with
  | [] => Eps
  | [r] => r
  | r :: rest => Seq r (seq rest)
  end.

Definition star := Quant 0 None true.
Definition plus := Quant 1 None true.
Definition lazy_star := Quant 0 None false.
Definition lazy_plus := Quant 1 None false.
Definition opt := Quant 0 (Some 1%nat) true.

End RegExp.
Import RegExp.

(* ===================================================================== *)
(** ** MarkdownRenderer (markdown-renderer.ts) *)
(* ===================================================================== *)

Module MarkdownRenderer.

Definition ALLOWED_TAGS : list jsstring :=
  map js [ "h1"; "h2"; "h3"; "h4"; "p"; "strong"; "em";
           "ul"; "ol"; "li"; "table"; "thead"; "tbody";
           "tr"; "th"; "td"; "pre"; "code"; "br" ]%string.

(** [ALLOWED_TAGS.has(t)] *)
Definition has (set : list jsstring) (t : jsstring) : bool :=
  existsb (JS.eqb t) set.

(** Flag sets of the literals below. *)
Definition g := {| ignoreCase := false; multiline := false |}.
Definition gm := {| ignoreCase := false; multiline := true |}.
Definition gi := {| ignoreCase := true; multiline := false |}.

(** [s.replace(re, t)] for a global pattern [re] of one character. *)
Definition replaceChar (c : N) (t : jsstring) (s : jsstring) : jsstring :=
  replaceAll g (Lit c) (fun _ _ => t) s.

Definition escapeHtml (text : jsstring) : jsstring :=
  replaceChar 34 (js "&quot;")
    (replaceChar 62 (js "&gt;")
      (replaceChar 60 (js "&lt;")
        (replaceChar 38 (js "&amp;") text))).

(** Pattern "```(\w*" ")\n([\s\S]*?)```" (one literal), flag g. *)
Definition re_codeBlock : regex :=
  seq [ lits (js "```"); Group 1 (star (Class false [CWord])); Lit 10;
        Group 2 (lazy_star (Class false [CSpace; CNotSpace]));
        lits (js "```") ].

(** Pattern "`([^`]+)`", flag g. *)
Definition re_inlineCode : regex :=
  seq [ Lit 96; Group 1 (plus (Class true [CChar 96])); Lit 96 ].

(** Pattern "^#### (.+)$", flags gm, and its three shorter siblings. *)
Definition re_header (hashes : string) : regex :=
  seq [ Bol; lits (js hashes); Lit 32; Group 1 (plus Dot); Eol ].

(** Pattern "\*\*(.+?)\*\*", flag g. *)
Definition re_bold : regex :=
  seq [ lits (js "**"); Group 1 (lazy_plus Dot); lits (js "**") ].

(** Pattern "\*(.+?)\*", flag g. *)
Definition re_italic : regex :=
  seq [ Lit 42; Group 1 (lazy_plus Dot); Lit 42 ].

(** Pattern "(?:^\|.+\|$\n?)+", flags gm. *)
Definition tableRegex : regex :=
  plus (seq [ Bol; Lit 124; plus Dot; Lit 124; Eol; opt (Lit 10) ]).

(** Pattern "^\|[\s\-:|]+\|$", no flag. *)
Definition re_separator : regex :=
  seq [ Bol; Lit 124;
        plus (Class false [CSpace; CChar 45; CChar 58; CChar 124]);
        Lit 124; Eol ].

(** Pattern "((?:^- .+$\n?)+)", flags gm. *)
Definition re_ulBlock : regex :=
  Group 1 (plus (seq [ Bol; lits (js "- "); plus Dot; Eol; opt (Lit 10) ])).

(** Pattern "^- ", no flag. *)
Definition re_ulMarker : regex := seq [ Bol; lits (js "- ") ].

(** Pattern "((?:^\d+\. .+$\n?)+)", flags gm. *)
Definition re_olBlock : regex :=
  Group 1 (plus (seq [ Bol; plus (Class false [CDigit]); Lit 46; Lit 32;
                       plus Dot; Eol; opt (Lit 10) ])).

(** Pattern "^\d+\. ", no flag. *)
Definition re_olMarker : regex :=
  seq [ Bol; plus (Class false [CDigit]); Lit 46; Lit 32 ].

(** Pattern "\n{2,}", flag g. *)
Definition re_blankLines : regex := Quant 2 None true (Lit 10).

(** Pattern "<\/?([a-zA-Z][a-zA-Z0-9]*" ")\b[^>]*>" (one literal),
    flags gi. *)
Definition re_tag : regex :=
  seq [ Lit 60; opt (Lit 47);
        Group 1 (Seq (Class false [CRange 97 122; CRange 65 90])
                     (star (Class false
                        [CRange 97 122; CRange 65 90; CRange 48 57])));
        WordBoundary; star (Class true [CChar 62]); Lit 62 ].

(** Pattern "\son\w+\s*=\s*[QA][^QA]*[QA]", flags gi, where Q is the
    double quote (34) and A the apostrophe (39). *)
Definition re_onAttr : regex :=
  seq [ Class false [CSpace]; lits (js "on"); plus (Class false [CWord]);
        star (Class false [CSpace]); Lit 61; star (Class false [CSpace]);
        Class false [CChar 34; CChar 39];
        star (Class true [CChar 34; CChar 39]);
        Class false [CChar 34; CChar 39] ].

(** Pattern "javascript\s*:", flags gi. *)
Definition re_javascript : regex :=
  seq [ lits (js "javascript"); star (Class false [CSpace]); Lit 58 ].

(** [rows.findIndex(p)]; [None] stands for -1. *)
Fixpoint findIndex {A} (p : A -> bool) (xs : list A) : option nat :=
  match xs with
  | [] => None
  | x :: rest =>
    if p x then Some O
    else match findIndex p rest with
         | Some i => Some (S i)
         | None => None
         end
  end.

(** A non-empty string is truthy. *)
Definition truthy (s : jsstring) : bool :=
  match s with [] => false | _ :: _ => true end.

Definition parseRow (row : jsstring) (tag : jsstring) : jsstring :=
  let cells := removelast (tl (split 124 row)) in
  let cellsHtml :=
    join [] (map (fun c => js "<" ++ tag ++ js ">" ++ trim c
                           ++ js "</" ++ tag ++ js ">") cells) in
  js "<tr>" ++ cellsHtml ++ js "</tr>".

Definition parseTables (html : jsstring) : jsstring :=
  replaceAll gm tableRegex (fun block _ =>
    let rows := filter (fun r => truthy (trim r)) (split 10 (trim block)) in
    if (List.length rows <? 2)%nat then block
    else
      match findIndex (test g re_separator) rows with
      | None => block
      | Some separatorIdx =>
        let headerRows := firstn separatorIdx rows in
        let bodyRows := skipn (S separatorIdx) rows in
        let thead := join [] (map (fun r => parseRow r (js "th")) headerRows) in
        let tbody := join [] (map (fun r => parseRow r (js "td")) bodyRows) in
        js "<table><thead>" ++ thead ++ js "</thead><tbody>" ++ tbody
          ++ js "</tbody></table>"
      end) html.

Definition listItems (marker : regex) (block : jsstring) : jsstring :=
  join [] (map (fun line =>
      js "<li>" ++ replaceFirst g marker (fun _ _ => []) line ++ js "</li>")
    (split 10 (trim block))).

Definition parseLists (html : jsstring) : jsstring :=
  let html := replaceAll gm re_ulBlock (fun block _ =>
    js "<ul>" ++ listItems re_ulMarker block ++ js "</ul>") html in
  let html := replaceAll gm re_olBlock (fun block _ =>
    js "<ol>" ++ listItems re_olMarker block ++ js "</ol>") html in
  html.

Definition parse (md : jsstring) : jsstring :=
  let html := md in
  let html := replaceAll g re_codeBlock (fun _ cs =>
    js "<pre><code>" ++ escapeHtml (trim (capture 2 cs))
      ++ js "</code></pre>") html in
  let html := replaceAll g re_inlineCode (fun _ cs =>
    js "<code>" ++ escapeHtml (capture 1 cs) ++ js "</code>") html in
  let html := replaceAll gm (re_header "####") (template (js "<h4>$1</h4>")) html in
  let html := replaceAll gm (re_header "###") (template (js "<h3>$1</h3>")) html in
  let html := replaceAll gm (re_header "##") (template (js "<h2>$1</h2>")) html in
  let html := replaceAll gm (re_header "#") (template (js "<h1>$1</h1>")) html in
  let html := replaceAll g re_bold (template (js "<strong>$1</strong>")) html in
  let html := replaceAll g re_italic (template (js "<em>$1</em>")) html in
  let html := parseTables html in
  let html := parseLists html in
  let html := replaceAll g re_blankLines (template (js "</p><p>")) html in
  let html := replaceAll g (Lit 10) (template (js "<br>")) html in
  if negb (startsWith html (js "<"))
  then js "<p>" ++ html ++ js "</p>"
  else html.

Definition sanitize (html : jsstring) : jsstring :=
  let html := replaceAll gi re_tag (fun matched cs =>
    if has ALLOWED_TAGS (map toLower (capture 1 cs)) then matched else [])
    html in
  let html := replaceAll gi re_onAttr (template []) html in
  let html := replaceAll gi re_javascript (template []) html in
  html.

Definition render (markdown : jsstring) : jsstring :=
  if negb (truthy markdown) then []
  else sanitize (parse markdown).

End MarkdownRenderer.

(* ===================================================================== *)
(** ** SSEClient (sse-client.ts) *)
(* ===================================================================== *)

Module SSEClient.

(** An invocation of one of the four handlers of [SSEHandlers]. *)
Inductive call (ChartData : Type) :=
| OnMessage (chunk : jsstring)
| OnChart (chart : ChartData)
| OnDone
| OnError (error : jsstring).
Arguments OnMessage {ChartData}.
Arguments OnChart {ChartData}.
Arguments OnDone {ChartData}.
Arguments OnError {ChartData}.

(** What the client does to the outside world: a [fetch], a
    [reader.read()], a [setTimeout] wait of [ms] milliseconds, or the
    invocation of a handler. *)
Inductive effect (ChartData : Type) :=
| Fetch
| Read
| Wait (ms : N)
| Call (c : call ChartData).
Arguments Fetch {ChartData}.
Arguments Read {ChartData}.
Arguments Wait {ChartData}.
Arguments Call {ChartData}.

(** What the outside world answers.  [abort()] can only run while the
    client is suspended at an [await]; it then rejects the pending fetch,
    body read or text read with an AbortError, and it clears the
    [abortController] field of the client. *)
Inductive read_result :=
| Chunk (text : jsstring)     (* [{done: false, value}], decoded *)
| ReadError                   (* the read rejects, not by an abort *)
| ReadAborted.                (* [abort()] during the read *)

Inductive text_result :=
| Text (detail : jsstring)
| TextError
| TextAborted.

Inductive fetch_result :=
| NetworkError                (* fetch rejects, not by an abort *)
| FetchAborted                (* [abort()] during the fetch *)
| Response (status : N) (text : text_result)
           (body : option (list read_result)).
                              (* chunks in order, then [{done: true}] *)

Record attempt_env := {
  fetched : fetch_result;
  abortDuringWait : bool      (* [abort()] during the backoff wait *)
}.

Record AbortController := { aborted : bool }.

(** How the [try] block of an attempt ends: it executes [return], or it
    throws (an AbortError or something else). *)
Inductive outcome := Returned | Thrown (abortError : bool).

Definition maxRetries : N := 3.

Definition MSG_NETWORK : jsstring := js "네트워크 연결을 확인해주세요.".

Section Client.

Variable ChartData : Type.
(** [JSON.parse]; [None] when it throws. *)
Variable JSON_parse : jsstring -> option ChartData.

Definition handleEvent (event data : jsstring) : list (call ChartData) :=
  if JS.eqb event (js "message") then [OnMessage data]
  else if JS.eqb event (js "chart") then
    match JSON_parse data with
    | Some chart => [OnChart chart]
    | None => []
    end
  else if JS.eqb event (js "done") then [OnDone]
  else if JS.eqb event (js "error") then [OnError data]
  else [].

(** The [for (const line of lines)] loop of [stream]. *)
Fixpoint dispatchLines (currentEvent : jsstring) (lines : list jsstring)
    : list (call ChartData) :=
  match lines with
  | [] => []
  | line :: rest =>
    if startsWith line (js "event: ") then
      dispatchLines (trim (slice 7 line)) rest
    else if startsWith line (js "data: ") then
      handleEvent currentEvent (slice 6 line)
        ++ dispatchLines (js "message") rest
    else dispatchLines currentEvent rest
  end.

(** The [while (true)] loop of [stream].  [decoder.decode(value, {stream:
    true})] is the platform's streaming decoder; a [Chunk] carries its
    result.  [currentEvent] is declared inside the loop body, so every read
    starts from [message]. *)
Fixpoint readLoop (buffer : jsstring) (reads : list read_result)
    : list (effect ChartData) * outcome :=
  match reads with
  | [] => ([Read], Returned)
  | Chunk value :: rest =>
    let buffer := buffer ++ value in
    let lines := split 10 buffer in
    let buffer := last lines [] in
    let lines := removelast lines in
    let '(t, o) := readLoop buffer rest in
    (Read :: map Call (dispatchLines (js "message") lines) ++ t, o)
  | ReadError :: _ => ([Read], Thrown false)
  | ReadAborted :: _ => ([Read], Thrown true)
  end.

Definition ok (status : N) : bool := (200 <=? status) && (status <=? 299).

(** The [try] block of one attempt.  The field [abortController] is read
    again at each attempt: when it is [null], the access to [.signal]
    throws a TypeError inside the [try]. *)
Definition attemptBody (field : option AbortController) (e : attempt_env)
    : list (effect ChartData) * outcome * option AbortController :=
  match field with
  | None => ([], Thrown false, None)
  | Some c =>
    if aborted c then ([], Returned, field)
    else
      match fetched e with
      | NetworkError => ([Fetch], Thrown false, field)
      | FetchAborted => ([Fetch], Thrown true, None)
      | Response status text body =>
        if negb (ok status) then
          let detail := match text with Text d => d | _ => [] end in
          ([Fetch; Call (OnError (js "HTTP " ++ numberToString status
                                   ++ js ": " ++ detail))],
           Returned,
           match text with TextAborted => None | _ => field end)
        else
          match body with
          | None => ([Fetch; Call (OnError (js "No response body"))],
                     Returned, field)
          | Some reads =>
            let '(t, o) := readLoop [] reads in
            (Fetch :: t, o,
             match o with Thrown true => None | _ => field end)
          end
      end
  end.

(** The [for] loop from [attempt] on; [remaining] counts the iterations
    left, [maxRetries + 1 - attempt]. *)
Fixpoint attempts (remaining : nat) (attempt : N)
    (field : option AbortController) (env : N -> attempt_env)
    : list (effect ChartData) * option AbortController :=
  match remaining with
  | O => ([], None)
  | S remaining' =>
    let '(t, o, field) := attemptBody field (env attempt) in
    match o with
    | Returned => (t, field)
    | Thrown true => (t, field)
    | Thrown false =>
      if attempt =? maxRetries then
        (t ++ [Call (OnError MSG_NETWORK)], field)
      else
        let delay := 2 ^ attempt * 1000 in
        let field := if abortDuringWait (env attempt) then None else field in
        let '(t', field) := attempts remaining' (attempt + 1) field env in
        (t ++ Wait delay :: t', field)
    end
  end.

(** [abort()]: the controller in the field, if any, is aborted and the
    field is cleared. *)
Definition abort (field : option AbortController) : option AbortController :=
  match field with
  | Some _ => None
  | None => None
  end.

(** [stream(url, body, token, handlers)]: the effects in order and the
    final value of the field. *)
Definition stream (field : option AbortController) (env : N -> attempt_env)
    : list (effect ChartData) * option AbortController :=
  let field := abort field in
  let field := Some {| aborted := false |} in
  attempts (S (N.to_nat maxRetries)) 0 field env.

(** The handler invocations of a run, in order. *)
Fixpoint calls (t : list (effect ChartData)) : list (call ChartData) :=
  match t with
  | [] => []
  | Call c :: rest => c :: calls rest
  | _ :: rest => calls rest
  end.

Definition isTerminal (e : effect ChartData) : bool :=
  match e with
  | Call OnDone | Call (OnError _) => true
  | _ => false
  end.

Definition isReadOrCall (e : effect ChartData) : bool :=
  match e with
  | Read | Call _ => true
  | _ => false
  end.

(** No read and no handler invocation after a terminal invocation. *)
Fixpoint quietAfterTerminal (t : list (effect ChartData)) : bool :=
  match t with
  | [] => true
  | e :: rest =>
    if isTerminal e then negb (existsb isReadOrCall rest)
    else quietAfterTerminal rest
  end.

(** Number of [reader.read()] calls of a run. *)
Fixpoint countReads (t : list (effect ChartData)) : nat :=
  match t with
  | [] => O
  | Read :: rest => S (countReads rest)
  | _ :: rest => countReads rest
  end.

End Client.

(** An environment whose every attempt gets the same answer and in which
    [abort()] is never called during a wait. *)
Definition always (r : fetch_result) : N -> attempt_env :=
  fun _ => {| fetched := r; abortDuringWait := false |}.

(** A 200 response whose body delivers the given chunks and then ends. *)
Definition streaming (chunks : list jsstring) : N -> attempt_env :=
  always (Response 200 (Text []) (Some (map Chunk chunks))).

(** The first fetch fails on the network and [abort()] is called during
    the backoff wait that follows. *)
Definition abortedWhileWaiting : N -> attempt_env :=
  fun attempt => {| fetched := NetworkError;
                    abortDuringWait := attempt =? 0 |}.

End SSEClient.

(* ===================================================================== *)
(** ** SpoChatbot (spo-chatbot.ts) with ChatUI (chat-ui.ts) *)
(* ===================================================================== *)

Module SpoChatbot.

Import SSEClient.

Inductive role := user | assistant.

Record Message := {
  id : jsstring;
  msg_role : role;
  content : jsstring;
  timestamp : N
}.

Record SpoChatbotConfig := {
  apiUrl : jsstring;
  token : jsstring;
  theme : jsstring;
  contextType : jsstring;
  contextParams : list (jsstring * jsstring);   (* in insertion order *)
  lang : jsstring
}.

Record ChatRequest := {
  message : jsstring;
  context_type : jsstring;
  context : option (list (jsstring * jsstring))
}.

Record CreateSessionRequest := {
  cs_context_type : jsstring;
  cs_context : list (jsstring * jsstring)
}.

(** Requests that leave the widget, in order. *)
Inductive request :=
| CreateSession (r : CreateSessionRequest)
| DeleteSession (contextType : jsstring)
| StreamRequest (url : jsstring) (body : ChatRequest) (token : jsstring).

(** How [ApiClient.request] ends: it resolves, it throws an [ApiError]
    carrying the status of a non-2xx response, or it throws something else
    (fetch rejected, the body is not JSON). *)
Inductive api_outcome :=
| Resolves (session_id : jsstring)
| ThrowsApiError (status : N)
| ThrowsOther.

Definition MSG_AUTH : jsstring :=
  js "인증이 만료되었습니다. 다시 로그인해주세요.".
Definition MSG_FORBIDDEN : jsstring := js "접근 권한이 부족합니다.".
Definition MSG_SERVER : jsstring :=
  js "서버 오류입니다. 잠시 후 다시 시도해주세요.".
Definition MSG_SESSION_EXPIRED : jsstring :=
  js "세션이 만료되었습니다. 초기화 버튼을 눌러주세요.".
Definition MSG_STREAM : jsstring := js "응답 중 오류가 발생했습니다.".

Section Widget.

Variable ChartData : Type.
Variable JSON_parse : jsstring -> option ChartData.
(** [Date.now()] when the message with the given counter is created. *)
Variable Date_now : N -> N.

(** *** ChatUI *)

(** Elements below [messagesEl], as far as the two selectors of the
    widget, [.spo-empty] and [.spo-message--assistant[data-raw]], can tell
    them apart.  The first four kinds are built by the widget itself with
    [createElement] and [textContent]; below them nothing matches either
    selector.  [Node] is any other element, with its class list, its
    [data-raw] attribute and its element children: the element opened by
    [startStreaming], and whatever the HTML parser builds when a rendered
    text is assigned to [innerHTML]. *)
#[local] Set Warnings "-register-all".
Inductive element :=
| EmptyState                            (* [div.spo-empty] *)
| MessageEl (m : Message)               (* a user message, text only *)
| ErrorEl (message : jsstring) (retry : bool)
| ChartEl (chart : ChartData)           (* wrapper of [chartRenderer.render] *)
| Node (classes : list jsstring) (dataRaw : option jsstring)
       (children : list element).

(** The parser behind the [innerHTML] setter: the element children built
    from a markup string. *)
Variable parseHTML : jsstring -> list element.

(** The element [startStreaming] creates, and what it becomes. *)
Definition AssistantEl (raw : jsstring) (children : list element) : element :=
  Node [js "spo-message"; js "spo-message--assistant"] (Some raw) children.

Record ChatUI := {
  messagesEl : list element;
  inputDisabled : bool;      (* textarea.disabled and sendBtn.disabled *)
  loadingShown : bool        (* loadingEl.style.display is not none *)
}.

Definition setInputDisabled (disabled : bool) (u : ChatUI) : ChatUI :=
  {| messagesEl := messagesEl u; inputDisabled := disabled;
     loadingShown := loadingShown u |}.

Definition setMessagesEl (els : list element) (u : ChatUI) : ChatUI :=
  {| messagesEl := els; inputDisabled := inputDisabled u;
     loadingShown := loadingShown u |}.

Definition setLoadingShown (b : bool) (u : ChatUI) : ChatUI :=
  {| messagesEl := messagesEl u; inputDisabled := inputDisabled u;
     loadingShown := b |}.

Definition hasClass (c : jsstring) (classes : list jsstring) : bool :=
  existsb (JS.eqb c) classes.

(** Does the element match [.spo-empty]? *)
Definition isEmpty (e : element) : bool :=
  match e with
  | EmptyState => true
  | Node classes _ _ => hasClass (js "spo-empty") classes
  | _ => false
  end.

(** Does the element match [.spo-message--assistant[data-raw]]? *)
Definition isOpen (e : element) : bool :=
  match e with
  | Node classes (Some _) _ => hasClass (js "spo-message--assistant") classes
  | _ => false
  end.

(** [e] without the first match of [.spo-empty] among its descendants, in
    document order; [None] when there is no match. *)
Fixpoint removeEmptyBelow (e : element) : option element :=
  match e with
  | Node classes dataRaw children =>
    match
      (fix forest (ns : list element) : option (list element) :=
         match ns with
         | [] => None
         | n :: rest =>
           if isEmpty n then Some rest
           else match removeEmptyBelow n with
                | Some n' => Some (n' :: rest)
                | None =>
                  match forest rest with
                  | Some rest' => Some (n :: rest')
                  | None => None
                  end
                end
         end) children
    with
    | Some children' => Some (Node classes dataRaw children')
    | None => None
    end
  | _ => None
  end.

(** The same for a list of siblings and their descendants. *)
Fixpoint removeFirstEmpty (ns : list element) : option (list element) :=
  match ns with
  | [] => None
  | n :: rest =>
    if isEmpty n then Some rest
    else match removeEmptyBelow n with
         | Some n' => Some (n' :: rest)
         | None =>
           match removeFirstEmpty rest with
           | Some rest' => Some (n :: rest')
           | None => None
           end
         end
  end.

(** [querySelector('.spo-empty')] then [remove()]. *)
Definition dropFirstEmpty (els : list element) : list element :=
  match removeFirstEmpty els with
  | Some els' => els'
  | None => els
  end.

Definition removeEmpty (u : ChatUI) : ChatUI :=
  setMessagesEl (dropFirstEmpty (messagesEl u)) u.

(** [addMessage(message)]: a user message shows its text; an assistant
    message shows its rendered content (the [Message] of this model has no
    charts). *)
Definition addMessage (msg : Message) (u : ChatUI) : ChatUI :=
  let u := removeEmpty u in
  let el :=
    match msg_role msg with
    | user => MessageEl msg
    | assistant =>
      Node [js "spo-message"; js "spo-message--assistant"] None
           (parseHTML (MarkdownRenderer.render (content msg)))
    end in
  setMessagesEl (messagesEl u ++ [el]) u.

(** [e] with [f] applied to the last match of
    [.spo-message--assistant[data-raw]] among [e] and its descendants, in
    document order (a descendant comes after its ancestor); [None] when
    nothing matches. *)
Fixpoint updateLastBelow (f : element -> element) (e : element)
    : option element :=
  match e with
  | Node classes dataRaw children =>
    match
      (fix forest (ns : list element) : option (list element) :=
         match ns with
         | [] => None
         | n :: rest =>
           match forest rest with
           | Some rest' => Some (n :: rest')
           | None =>
             match updateLastBelow f n with
             | Some n' => Some (n' :: rest)
             | None => None
             end
           end
         end) children
    with
    | Some children' => Some (Node classes dataRaw children')
    | None => if isOpen e then Some (f e) else None
    end
  | _ => None
  end.

(** The same for a list of siblings and their descendants. *)
Fixpoint updateLast (f : element -> element) (ns : list element)
    : option (list element) :=
  match ns with
  | [] => None
  | n :: rest =>
    match updateLast f rest with
    | Some rest' => Some (n :: rest')
    | None =>
      match updateLastBelow f n with
      | Some n' => Some (n' :: rest)
      | None => None
      end
    end
  end.

(** The last match itself: [all[all.length - 1]] of the
    [querySelectorAll], [None] when the list is empty. *)
Fixpoint lastOpenBelow (e : element) : option element :=
  match e with
  | Node classes dataRaw children =>
    match
      (fix forest (ns : list element) : option element :=
         match ns with
         | [] => None
         | n :: rest =>
           match forest rest with
           | Some x => Some x
           | None => lastOpenBelow n
           end
         end) children
    with
    | Some x => Some x
    | None => if isOpen e then Some e else None
    end
  | _ => None
  end.

Fixpoint lastOpen (ns : list element) : option element :=
  match ns with
  | [] => None
  | n :: rest =>
    match lastOpen rest with
    | Some x => Some x
    | None => lastOpenBelow n
    end
  end.

(** What [appendToLastAssistant(chunk)] does to [last]: [data-raw] grows
    by the chunk and the children are replaced by the rendering of the
    whole raw text. *)
Definition appendChunk (chunk : jsstring) (last : element) : element :=
  match last with
  | Node classes (Some current) _ =>
    let updated := current ++ chunk in
    Node classes (Some updated)
         (parseHTML (MarkdownRenderer.render updated))
  | _ => last
  end.

Definition appendToLastAssistant (chunk : jsstring) (u : ChatUI) : ChatUI :=
  match updateLast (appendChunk chunk) (messagesEl u) with
  | Some els => setMessagesEl els u
  | None => u
  end.

(** What [addChartToLastAssistant(chart)] does to [last]: the chart
    wrapper becomes its last child. *)
Definition appendChart (chart : ChartData) (last : element) : element :=
  match last with
  | Node classes dataRaw children =>
    Node classes dataRaw (children ++ [ChartEl chart])
  | _ => last
  end.

Definition addChartToLastAssistant (chart : ChartData) (u : ChatUI) : ChatUI :=
  match updateLast (appendChart chart) (messagesEl u) with
  | Some els => setMessagesEl els u
  | None => u
  end.

Definition startStreaming (u : ChatUI) : ChatUI :=
  let u := removeEmpty u in
  let u := setMessagesEl (messagesEl u ++ [AssistantEl [] []]) u in
  let u := setLoadingShown true u in
  setInputDisabled true u.

Definition endStreaming (u : ChatUI) : ChatUI :=
  let u := setLoadingShown false u in
  setInputDisabled false u.

(** [showError(message, retryCallback?)]; [retry] tells whether a callback
    was passed, that is, whether the retry button is shown. *)
Definition showError (message : jsstring) (retry : bool) (u : ChatUI)
    : ChatUI :=
  setMessagesEl (messagesEl u ++ [ErrorEl message retry]) u.

Definition clearMessages (u : ChatUI) : ChatUI :=
  setMessagesEl [EmptyState] u.

(** [lastEl?.getAttribute('data-raw') || ''] for the last match in the
    message area; the rest of the shadow root holds no match. *)
Definition lastRaw (els : list element) : jsstring :=
  match lastOpen els with
  | Some (Node _ (Some raw) _) => raw
  | _ => []
  end.

(** *** The element *)

Record state := {
  config : SpoChatbotConfig;
  sse : option AbortController;       (* the SSEClient's only field *)
  ui : ChatUI;
  sessionId : option jsstring;
  messages : list Message;
  messageCounter : N;
  error : option jsstring;
  lastFailedMessage : option jsstring;
  requests : list request
}.

Definition setUi (f : ChatUI -> ChatUI) (s : state) : state :=
  {| config := config s; sse := sse s; ui := f (ui s);
     sessionId := sessionId s; messages := messages s;
     messageCounter := messageCounter s; error := error s;
     lastFailedMessage := lastFailedMessage s; requests := requests s |}.

Definition setSse (a : option AbortController) (s : state) : state :=
  {| config := config s; sse := a; ui := ui s;
     sessionId := sessionId s; messages := messages s;
     messageCounter := messageCounter s; error := error s;
     lastFailedMessage := lastFailedMessage s; requests := requests s |}.

Definition setSessionId (i : option jsstring) (s : state) : state :=
  {| config := config s; sse := sse s; ui := ui s;
     sessionId := i; messages := messages s;
     messageCounter := messageCounter s; error := error s;
     lastFailedMessage := lastFailedMessage s; requests := requests s |}.

Definition setMessages (ms : list Message) (s : state) : state :=
  {| config := config s; sse := sse s; ui := ui s;
     sessionId := sessionId s; messages := ms;
     messageCounter := messageCounter s; error := error s;
     lastFailedMessage := lastFailedMessage s; requests := requests s |}.

Definition setMessageCounter (n : N) (s : state) : state :=
  {| config := config s; sse := sse s; ui := ui s;
     sessionId := sessionId s; messages := messages s;
     messageCounter := n; error := error s;
     lastFailedMessage := lastFailedMessage s; requests := requests s |}.

Definition setError (e : option jsstring) (s : state) : state :=
  {| config := config s; sse := sse s; ui := ui s;
     sessionId := sessionId s; messages := messages s;
     messageCounter := messageCounter s; error := e;
     lastFailedMessage := lastFailedMessage s; requests := requests s |}.

Definition setLastFailedMessage (m : option jsstring) (s : state) : state :=
  {| config := config s; sse := sse s; ui := ui s;
     sessionId := sessionId s; messages := messages s;
     messageCounter := messageCounter s; error := error s;
     lastFailedMessage := m; requests := requests s |}.

Definition send (r : request) (s : state) : state :=
  {| config := config s; sse := sse s; ui := ui s;
     sessionId := sessionId s; messages := messages s;
     messageCounter := messageCounter s; error := error s;
     lastFailedMessage := lastFailedMessage s;
     requests := requests s ++ [r] |}.

(** [handleStreamError(error)] *)
Definition handleStreamError (err : jsstring) (s : state) : state :=
  if includes err (js "401") then
    let s := setError (Some MSG_AUTH) s in
    let s := setUi (showError MSG_AUTH false) s in
    setUi (setInputDisabled true) s
  else if includes err (js "410") then
    let s := setError (Some MSG_SESSION_EXPIRED) s in
    setUi (showError MSG_SESSION_EXPIRED false) s
  else
    let s := setError (Some MSG_STREAM) s in
    setUi (showError MSG_STREAM true) s.

(** [handleApiError(err)]: [status] is [Some n] for an [ApiError] with
    status [n]; [initSession] is what [this.initSession()] does next. *)
Definition handleApiError (initSession : state -> state)
    (status : option N) (s : state) : state :=
  match status with
  | Some n =>
    if n =? 401 then
      let s := setError (Some MSG_AUTH) s in
      let s := setUi (showError MSG_AUTH false) s in
      setUi (setInputDisabled true) s
    else if n =? 403 then
      let s := setError (Some MSG_FORBIDDEN) s in
      let s := setUi (showError MSG_FORBIDDEN false) s in
      setUi (setInputDisabled true) s
    else if n =? 410 then
      initSession s
    else
      let s := setError (Some MSG_SERVER) s in
      setUi (showError MSG_SERVER true) s
  | None =>
    let s := setError (Some MSG_NETWORK) s in
    setUi (showError MSG_NETWORK true) s
  end.

(** [initSession()]; [answers] are the outcomes of the successive
    [createSession] calls, and an exhausted list is a call that has not
    answered yet. *)
Fixpoint initSession (answers : list api_outcome) (s : state) : state :=
  let request := {| cs_context_type := contextType (config s);
                    cs_context := contextParams (config s) |} in
  let s := send (CreateSession request) s in
  match answers with
  | [] => s
  | Resolves session_id :: _ => setSessionId (Some session_id) s
  | ThrowsApiError status :: rest =>
    handleApiError (initSession rest) (Some status) s
  | ThrowsOther :: rest => handleApiError (initSession rest) None s
  end.

(** [buildChatRequest(message)] *)
Definition buildChatRequest (cfg : SpoChatbotConfig) (message : jsstring)
    : ChatRequest :=
  {| message := message;
     context_type := contextType cfg;
     context := if (0 <? List.length (contextParams cfg))%nat
                then Some (contextParams cfg) else None |}.

(** Pattern "\/$", no flag. *)
Definition re_trailingSlash : regex := Seq (Lit 47) Eol.

Definition streamUrl (cfg : SpoChatbotConfig) : jsstring :=
  replaceFirst MarkdownRenderer.g re_trailingSlash (fun _ _ => []) (apiUrl cfg)
    ++ js "/api/chat/stream".

Definition nextId (s : state) : jsstring :=
  js "msg-" ++ numberToString (messageCounter s + 1).

(** [handleSend(text)] up to the call of [sse.stream]: the state and the
    arguments of the call. *)
Definition submit (text : jsstring) (s : state) : state :=
  let s := setError None s in
  let s := setLastFailedMessage None s in
  let userMsg := {| id := nextId s; msg_role := user; content := text;
                    timestamp := Date_now (messageCounter s + 1) |} in
  let s := setMessageCounter (messageCounter s + 1) s in
  let s := setMessages (messages s ++ [userMsg]) s in
  let s := setUi (addMessage userMsg) s in
  let s := setUi startStreaming s in
  let request := buildChatRequest (config s) text in
  let url := streamUrl (config s) in
  send (StreamRequest url request (token (config s))) s.

(** The four handlers [handleSend(text)] passes to [sse.stream]. *)
Definition handler (text : jsstring) (s : state) (c : call ChartData)
    : state :=
  match c with
  | OnMessage chunk => setUi (appendToLastAssistant chunk) s
  | OnChart chart => setUi (addChartToLastAssistant chart) s
  | OnDone =>
    let s := setUi endStreaming s in
    let s := setLastFailedMessage None s in
    let raw := lastRaw (messagesEl (ui s)) in
    let assistantMsg := {| id := nextId s; msg_role := assistant;
                           content := raw;
                           timestamp := Date_now (messageCounter s + 1) |} in
    let s := setMessageCounter (messageCounter s + 1) s in
    setMessages (messages s ++ [assistantMsg]) s
  | OnError err =>
    let s := setUi endStreaming s in
    let s := setLastFailedMessage (Some text) s in
    handleStreamError err s
  end.


(** [handleSend(text)] with the whole run of [sse.stream] against the
    environment [env]; no other entry point of the element runs during the
    turn. *)
Definition handleSend (text : jsstring) (env : N -> attempt_env)
    (s : state) : state :=
  let s := submit text s in
  let '(t, field) := stream ChartData JSON_parse (sse s) env in
  fold_left (handler text) (calls ChartData t) (setSse field s).

(** [handleRetry()] *)
Definition handleRetry (env : N -> attempt_env) (s : state) : state :=
  match lastFailedMessage s with
  | Some message =>
    if MarkdownRenderer.truthy message then
      let s := setError None s in
      let s := setLastFailedMessage None s in
      handleSend message env s
    else s
  | None => s
  end.

(** [handleReset()]; the outcome of [deleteSession] is ignored. *)
Definition handleReset (answers : list api_outcome) (s : state) : state :=
  let s := send (DeleteSession (contextType (config s))) s in
  let s := setMessages [] s in
  let s := setSessionId None s in
  let s := setUi clearMessages s in
  initSession answers s.

(** The element after [renderShadow()], before [initSession()]. *)
Definition rendered (cfg : SpoChatbotConfig) : state :=
  {| config := cfg; sse := None;
     ui := {| messagesEl := [EmptyState]; inputDisabled := false;
              loadingShown := false |};
     sessionId := None; messages := []; messageCounter := 0;
     error := None; lastFailedMessage := None; requests := [] |}.

(** [connectedCallback()]; without an [api-url] nothing is rendered. *)
Definition connectedCallback (cfg : SpoChatbotConfig)
    (answers : list api_outcome) : option state :=
  if negb (MarkdownRenderer.truthy (apiUrl cfg)) then None
  else Some (initSession answers (rendered cfg)).

End Widget.

(** A configuration as the sample pages set it. *)
Definition sampleConfig : SpoChatbotConfig :=
  {| apiUrl := js "https://chat.example/"; token := js "jwt";
     theme := js "default"; contextType := js "badminton";
     contextParams := [(js "match_id", js "42")]; lang := js "ko" |}.

(** A stand-in for the HTML parser in the examples: in a markup that
    mentions [data-raw] it finds one element that matches
    [.spo-message--assistant[data-raw]], with an empty [data-raw]; in any
    other markup it finds no element. *)
Definition sampleParser (ChartData : Type) (html : jsstring)
    : list (element ChartData) :=
  if includes html (js "data-raw")
  then [Node ChartData [js "spo-message--assistant"] (Some []) []]
  else [].

End SpoChatbot.

(* ===================================================================== *)
(** ** ChatUI input area, observed attributes, ChartRenderer *)
(* ===================================================================== *)

Module ChatUI.

(** The private [handleSend()] of chat-ui.ts: what is passed to
    [callbacks.onSend], [None] when the callback is not invoked. *)
Definition handleSend (value : jsstring) : option jsstring :=
  let text := trim value in
  if negb (MarkdownRenderer.truthy text) then None
  else Some text.

End ChatUI.

Module Attributes.

Import SpoChatbot.

Definition contextAttrs : list jsstring :=
  map js [ "match-id"; "player-id"; "tournament-id";
           "game-id"; "team-id";
           "pitcher-id"; "batter-id" ]%string.

(** The [for] loop of [collectContextParams()]; [getAttribute] returns
    [None] for [null].  The keys are distinct, so the object is the list of
    its entries in insertion order. *)
Fixpoint collectFrom (getAttribute : jsstring -> option jsstring)
    (attrs : list jsstring) : list (jsstring * jsstring) :=
  match attrs with
  | [] => []
  | attr :: rest =>
    match getAttribute attr with
    | Some value =>
      if MarkdownRenderer.truthy value then
        (MarkdownRenderer.replaceChar 45 (js "_") attr, value)
          :: collectFrom getAttribute rest
      else collectFrom getAttribute rest
    | None => collectFrom getAttribute rest
    end
  end.

Definition collectContextParams (getAttribute : jsstring -> option jsstring)
    : list (jsstring * jsstring) :=
  collectFrom getAttribute contextAttrs.

(** An element that carries [match-id="42"] and no other context
    attribute. *)
Definition sampleAttributes : jsstring -> option jsstring :=
  fun attr => if JS.eqb attr (js "match-id") then Some (js "42") else None.

(** [v || d] for an attribute value. *)
Definition orDefault (v : option jsstring) (d : jsstring) : jsstring :=
  match v with
  | Some x => if MarkdownRenderer.truthy x then x else d
  | None => d
  end.

(** Truthiness of an attribute value: neither [null] nor empty. *)
Definition isSet (v : option jsstring) : bool :=
  match v with
  | Some x => MarkdownRenderer.truthy x
  | None => false
  end.

(** [oldValue === newValue] *)
Definition sameValue (a b : option jsstring) : bool :=
  match a, b with
  | None, None => true
  | Some x, Some y => JS.eqb x y
  | _, _ => false
  end.

Definition withApiUrl (v : jsstring) (c : SpoChatbotConfig) :=
  {| apiUrl := v; token := token c; theme := theme c;
     contextType := contextType c; contextParams := contextParams c;
     lang := lang c |}.
Definition withToken (v : jsstring) (c : SpoChatbotConfig) :=
  {| apiUrl := apiUrl c; token := v; theme := theme c;
     contextType := contextType c; contextParams := contextParams c;
     lang := lang c |}.
Definition withTheme (v : jsstring) (c : SpoChatbotConfig) :=
  {| apiUrl := apiUrl c; token := token c; theme := v;
     contextType := contextType c; contextParams := contextParams c;
     lang := lang c |}.
Definition withContextType (v : jsstring) (c : SpoChatbotConfig) :=
  {| apiUrl := apiUrl c; token := token c; theme := theme c;
     contextType := v; contextParams := contextParams c;
     lang := lang c |}.
Definition withContextParams (v : list (jsstring * jsstring))
    (c : SpoChatbotConfig) :=
  {| apiUrl := apiUrl c; token := token c; theme := theme c;
     contextType := contextType c; contextParams := v;
     lang := lang c |}.
Definition withLang (v : jsstring) (c : SpoChatbotConfig) :=
  {| apiUrl := apiUrl c; token := token c; theme := theme c;
     contextType := contextType c; contextParams := contextParams c;
     lang := v |}.

Section Element.

Variable ChartData : Type.

Definition setConfig (f : SpoChatbotConfig -> SpoChatbotConfig)
    (s : state ChartData) : state ChartData :=
  {| config := f (config _ s); sse := sse _ s; ui := ui _ s;
     sessionId := sessionId _ s; messages := messages _ s;
     messageCounter := messageCounter _ s; error := error _ s;
     lastFailedMessage := lastFailedMessage _ s;
     requests := requests _ s |}.

(** [this.error?.includes('인증')] *)
Definition errorMentionsAuth (s : state ChartData) : bool :=
  match error _ s with
  | Some e => includes e (js "인증")
  | None => false
  end.

(** [attributeChangedCallback(name, oldValue, newValue)] on a rendered
    element; [getAttribute] reads the attributes after the change.  The
    [ApiClient] is rebuilt from, or updated with, the values stored in
    [config], and the theme is applied to a style element; neither is part
    of the state. *)
Definition attributeChangedCallback (getAttribute : jsstring -> option jsstring)
    (name : jsstring) (oldValue newValue : option jsstring)
    (s : state ChartData) : state ChartData :=
  if sameValue oldValue newValue then s
  else if JS.eqb name (js "api-url") then
    setConfig (withApiUrl (orDefault newValue [])) s
  else if JS.eqb name (js "token") then
    let s := setConfig (withToken (orDefault newValue [])) s in
    if isSet newValue && errorMentionsAuth s then
      let s := setError _ None s in
      setUi _ (setInputDisabled _ false) s
    else s
  else if JS.eqb name (js "theme") then
    setConfig (withTheme (orDefault newValue (js "default"))) s
  else if JS.eqb name (js "context-type") then
    setConfig (withContextType (orDefault newValue (js "badminton"))) s
  else if JS.eqb name (js "lang") then
    setConfig (withLang (orDefault newValue (js "ko"))) s
  else
    setConfig (withContextParams (collectContextParams getAttribute)) s.

End Element.

End Attributes.

Module ChartRenderer.

Definition DEFAULT_COLORS : list jsstring :=
  map js [ "#3b82f6"; "#ef4444"; "#10b981"; "#f59e0b"; "#8b5cf6" ]%string.

(** The loop of [getThemeColors] from index [i] on, [count] iterations;
    [getPropertyValue] is the computed style of the container. *)
Fixpoint themeColorsFrom (getPropertyValue : jsstring -> jsstring)
    (i : N) (count : nat) : list jsstring :=
  match count with
  | O => []
  | S count' =>
    let color :=
      trim (getPropertyValue (js "--spo-chart-color-" ++ numberToString i)) in
    if MarkdownRenderer.truthy color
    then color :: themeColorsFrom getPropertyValue (i + 1) count'
    else themeColorsFrom getPropertyValue (i + 1) count'
  end.

Definition getThemeColors (getPropertyValue : jsstring -> jsstring)
    : list jsstring :=
  let colors := themeColorsFrom getPropertyValue 1 5 in
  if (0 <? List.length colors)%nat then colors else DEFAULT_COLORS.

(** [colors[i % colors.length]]; [None] is [undefined]. *)
Definition colorAt (colors : list jsstring) (i : nat) : option jsstring :=
  nth_error colors (i mod List.length colors)%nat.

(** [getBackgroundColors(type, colors, datasetIndex, labelCount)]: one
    colour, or one per label for a pie. *)
Definition getBackgroundColors (type : jsstring) (colors : list jsstring)
    (datasetIndex labelCount : nat)
    : option jsstring + list (option jsstring) :=
  if JS.eqb type (js "pie")
  then inr (map (colorAt colors) (List.seq 0 labelCount))
  else inl (colorAt colors datasetIndex).

End ChartRenderer.

(* ===================================================================== *)
(** ** Notions used in the statements below *)
(* ===================================================================== *)

(** [subseq a b]: [a] is [b] with some elements deleted. *)
Inductive subseq {A : Type} : list A -> list A -> Prop :=
| subseq_nil : subseq [] []
| subseq_skip (x : A) (a b : list A) : subseq a b -> subseq a (x :: b)
| subseq_keep (x : A) (a b : list A) : subseq a b -> subseq (x :: a) (x :: b).

(** A character that is not an ASCII letter: with or without the [i]
    flag, a pattern character of this kind matches only itself. *)
Definition caseless (c : N) : bool := negb (isUpper c || isLower c).

(** [requires c r]: every text matched by [r] holds the pattern
    character [c] (a sufficient syntactic test). *)
Fixpoint requires (c : N) (r : regex) : bool :=
  match r with
  | Lit p => p =? c
  | Seq a b => requires c a || requires c b
  | Group _ r' => requires c r'
  | Quant mn mx _ r' =>
    negb (Nat.eqb mn 0) && negb (max_zero mx) && requires c r'
  | _ => false
  end.

(** Number of [fetch] calls and total backoff time of a run. *)
Fixpoint countFetches {ChartData : Type}
    (t : list (SSEClient.effect ChartData)) : nat :=
  match t with
  | [] => O
  | SSEClient.Fetch :: rest => S (countFetches rest)
  | _ :: rest => countFetches rest
  end.

Fixpoint totalWait {ChartData : Type}
    (t : list (SSEClient.effect ChartData)) : N :=
  match t with
  | [] => 0
  | SSEClient.Wait ms :: rest => ms + totalWait rest
  | _ :: rest => totalWait rest
  end.

(** RepeatMatcher, as a function of the matcher [mr] of the quantified
    pattern: the loop inside the [Quant] case of [m]. *)
Section RepeatMatcher.

Variable mr : mstate -> (mstate -> option mstate) -> option mstate.
Variable greedy : bool.

Fixpoint repeatMatcher (fuel : nat) (mn : nat) (mx : option nat) (x : mstate)
    (k : mstate -> option mstate) {struct fuel} : option mstate :=
  match fuel with
  | O => None
  | S fuel' =>
    if max_zero mx then k x
    else
      let d := fun y : mstate =>
        if (Nat.eqb mn 0) &&
           (Nat.eqb (List.length (after y)) (List.length (after x)))
        then None
        else repeatMatcher fuel' (pred mn) (max_pred mx) y k in
      if negb (Nat.eqb mn 0) then mr x d
      else if greedy then
        match mr x d with
        | Some z => Some z
        | None => k x
        end
      else
        match k x with
        | Some z => Some z
        | None => mr x d
        end
  end.

End RepeatMatcher.

(** What a successful match hands to its continuation: a state reached by
    consuming a prefix [w] of the remaining input, and [w] holds every
    character the pattern requires. *)
Definition advances (r : regex) (x y : mstate) : Prop :=
  exists w, after x = w ++ after y
    /\ before y = rev w ++ before x
    /\ forall c, caseless c = true -> requires c r = true -> In c w.

(** The characters one of the passes of [parse] or [sanitize] looks for:
    backquote, hash, asterisk, bar, hyphen, full stop, less-than, equals,
    colon and the line feed. *)
Definition markupChars : jsstring := js "`#*|-.<=:" ++ LF.

(** What [escapeHtml] writes for one character. *)
Definition escapeChar (a : N) : jsstring :=
  if a =? 38 then js "&amp;"
  else if a =? 60 then js "&lt;"
  else if a =? 62 then js "&gt;"
  else if a =? 34 then js "&quot;"
  else [a].

(** The replacement function of the first pass of [sanitize]. *)
Definition keepAllowed (matched : jsstring) (cs : list (nat * jsstring))
    : jsstring :=
  if MarkdownRenderer.has MarkdownRenderer.ALLOWED_TAGS
       (map toLower (capture 1 cs))
  then matched else [].

(** The request [initSession()] sends from the state [s]. *)
Definition sessionRequest {ChartData : Type}
    (s : SpoChatbot.state ChartData) : SpoChatbot.request :=
  SpoChatbot.CreateSession
    {| SpoChatbot.cs_context_type :=
         SpoChatbot.contextType (SpoChatbot.config _ s);
       SpoChatbot.cs_context :=
         SpoChatbot.contextParams (SpoChatbot.config _ s) |}.

Import MarkdownRenderer SSEClient SpoChatbot.

(** Induction on an element and, through [Forall], on its children. *)
Section ElementInduction.

Variable ChartData : Type.
Variable P : element ChartData -> Prop.
Hypothesis P_EmptyState : P (EmptyState _).
Hypothesis P_MessageEl : forall m, P (MessageEl _ m).
Hypothesis P_ErrorEl : forall message retry, P (ErrorEl _ message retry).
Hypothesis P_ChartEl : forall chart, P (ChartEl _ chart).
Hypothesis P_Node : forall classes dataRaw children,
  Forall P children -> P (Node _ classes dataRaw children).

Fixpoint element_induction (e : element ChartData) : P e :=
  match e with
  | EmptyState _ => P_EmptyState
  | MessageEl _ m => P_MessageEl m
  | ErrorEl _ message retry => P_ErrorEl message retry
  | ChartEl _ chart => P_ChartEl chart
  | Node _ classes dataRaw children =>
    P_Node classes dataRaw children
      ((fix all (ns : list (element ChartData)) : Forall P ns :=
          match ns with
          | [] => Forall_nil P
          | n :: rest => Forall_cons n (element_induction n) (all rest)
          end) children)
  end.

End ElementInduction.


(** Follows the spec's words, not the source: an inline event-handler
    attribute is a name starting with [on] after white space and followed
    by an equals sign, whatever the quoting of its value.
    Pattern "\son\w+\s*=", flags gi. *)
Definition spec_eventHandlerAttr : regex :=
  seq [ Class false [CSpace]; lits (js "on"); plus (Class false [CWord]);
        star (Class false [CSpace]); Lit 61 ].

(* ===================================================================== *)
(** ** Properties of MarkdownRenderer *)
(* ===================================================================== *)

Section MarkdownRendererFacts.

(** C10: [render] of the empty string is the empty string; no paragraph
    wrapper or other markup is produced. *)
Theorem C10_render_empty : render [] = [].
Proof. reflexivity. Qed.

(** C2 (evaluation at the failing inputs): the single pass that deletes
    [javascript:] leaves a new occurrence behind when the deleted text was
    nested, and the attribute pass only deletes quoted values, so an
    unquoted handler on an allowed tag reaches the output unchanged. *)
Theorem C2_sanitize_leaves_scheme_and_handler :
  render (js "javajavascript:script:") = js "<p>javascript:</p>"
  /\ test gi re_javascript (render (js "javajavascript:script:")) = true
  /\ render (js "<p onclick=alert(1)>x</p>") = js "<p onclick=alert(1)>x</p>"
  /\ test gi spec_eventHandlerAttr (render (js "<p onclick=alert(1)>x</p>"))
     = true.
Proof. repeat split; vm_compute; reflexivity. Qed.

(** The two examples of the specification. *)
Example render_bold : render (js "**bold**") = js "<strong>bold</strong>".
Proof. vm_compute. reflexivity. Qed.

Example render_script :
  render (js "<script>alert(1)</script>") = js "alert(1)".
Proof. vm_compute. reflexivity. Qed.

End MarkdownRendererFacts.

(* ===================================================================== *)
(** ** Properties of SSEClient *)
(* ===================================================================== *)

Section SSEClientFacts.

Variable ChartData : Type.
Variable JSON_parse : jsstring -> option ChartData.

Local Abbreviation handleEvent := (SSEClient.handleEvent ChartData JSON_parse).
Local Abbreviation dispatchLines := (SSEClient.dispatchLines ChartData JSON_parse).
Local Abbreviation readLoop := (SSEClient.readLoop ChartData JSON_parse).
Local Abbreviation attemptBody := (SSEClient.attemptBody ChartData JSON_parse).
Local Abbreviation attempts := (SSEClient.attempts ChartData JSON_parse).
Local Abbreviation stream := (SSEClient.stream ChartData JSON_parse).

(** Evaluate the closed string literals of a goal. *)
Ltac js_eval :=
  repeat match goal with
  | |- context [js ?s] =>
    let v := eval vm_compute in (js s) in change (js s) with v
  end.

Lemma startsWith_app (p s : jsstring) : startsWith (p ++ s) p = true.
Proof.
  induction p as [|c p IH]; simpl; [destruct s; reflexivity|].
  rewrite N.eqb_refl. exact IH.
Qed.

Lemma event_line (name : jsstring) :
  startsWith (js "event: " ++ name) (js "event: ") = true
  /\ slice 7 (js "event: " ++ name) = name.
Proof. split; [apply startsWith_app | reflexivity]. Qed.

Lemma data_line (data : jsstring) :
  startsWith (js "data: " ++ data) (js "event: ") = false
  /\ startsWith (js "data: " ++ data) (js "data: ") = true
  /\ slice 6 (js "data: " ++ data) = data.
Proof. repeat split; [apply startsWith_app]. Qed.

(** A frame: an [event:] line followed by a [data:] line, within one read. *)
Lemma dispatch_frame (cur name data : jsstring) (rest : list jsstring) :
  dispatchLines cur ((js "event: " ++ name) :: (js "data: " ++ data) :: rest)
  = handleEvent (trim name) data ++ dispatchLines (js "message") rest.
Proof.
  destruct (event_line name) as [E1 E2].
  destruct (data_line data) as [D1 [D2 D3]].
  cbn [SSEClient.dispatchLines].
  rewrite E1, E2, D1, D2, D3. reflexivity.
Qed.

(** C9: a frame whose event kind is none of [message], [chart], [done],
    [error] invokes no handler, and the lines after it are decoded as if
    the frame had not been there. *)
Theorem C9_unknown_event_ignored
    (name data cur : jsstring) (rest : list jsstring) :
  JS.eqb (trim name) (js "message") = false ->
  JS.eqb (trim name) (js "chart") = false ->
  JS.eqb (trim name) (js "done") = false ->
  JS.eqb (trim name) (js "error") = false ->
  handleEvent (trim name) data = []
  /\ dispatchLines cur
       ((js "event: " ++ name) :: (js "data: " ++ data) :: rest)
     = dispatchLines (js "message") rest.
Proof.
  intros Hm Hc Hd He.
  assert (H0 : handleEvent (trim name) data = []).
  { unfold SSEClient.handleEvent. rewrite Hm, Hc, Hd, He. reflexivity. }
  split; [exact H0|].
  rewrite dispatch_frame, H0. reflexivity.
Qed.

(** C1 (evaluation at the failing input): the same bytes dispatch an
    [error] frame when they arrive in one read, and a [message] frame when
    the read boundary falls between the [event:] line and the [data:]
    line. *)
Theorem C1_event_kind_lost_across_reads (field : option AbortController) :
  calls ChartData
    (fst (stream field
       (streaming [js "event: error" ++ LF ++ js "data: boom" ++ LF])))
  = [OnError (js "boom")]
  /\
  calls ChartData
    (fst (stream field
       (streaming [js "event: error" ++ LF; js "data: boom" ++ LF])))
  = [OnMessage (js "boom")].
Proof. split; reflexivity. Qed.

(** *** Line buffering across reads *)

Lemma split_not_nil (sep : N) (s : jsstring) : split sep s <> [].
Proof.
  destruct s as [|c s]; cbn [split]; [discriminate|].
  destruct (c =? sep); [discriminate|].
  destruct (split sep s); discriminate.
Qed.

Lemma removelast_cons {A} (x : A) (l : list A) :
  l <> [] -> removelast (x :: l) = x :: removelast l.
Proof. destruct l; [contradiction | reflexivity]. Qed.

Lemma last_cons {A} (x d : A) (l : list A) :
  l <> [] -> last (x :: l) d = last l d.
Proof. destruct l; [contradiction | reflexivity]. Qed.

(** The pieces of [a ++ b] are the complete pieces of [a] followed by the
    pieces of what [a] left unterminated, continued by [b]: what the
    [buffer] of [stream] is for. *)
Lemma split_app (sep : N) (a b : jsstring) :
  split sep (a ++ b)
  = removelast (split sep a) ++ split sep (last (split sep a) [] ++ b).
Proof.
  induction a as [|c a IH]; [reflexivity|].
  cbn [app split]. destruct (c =? sep) eqn:E.
  - rewrite removelast_cons, last_cons by apply split_not_nil.
    cbn [app]. f_equal. exact IH.
  - rewrite IH. clear IH.
    pose proof (split_not_nil sep a) as Ha.
    destruct (split sep a) as [|h t]; [contradiction|].
    destruct t as [|h' t].
    + cbn [removelast last app split]. rewrite E. reflexivity.
    + rewrite !removelast_cons, !last_cons by discriminate.
      reflexivity.
Qed.

(** The unterminated piece holds no separator. *)
Lemma split_last (sep : N) (s : jsstring) :
  split sep (last (split sep s) []) = [last (split sep s) []].
Proof.
  induction s as [|c s IH]; [reflexivity|].
  cbn [split]. destruct (c =? sep) eqn:E.
  - rewrite last_cons by apply split_not_nil. exact IH.
  - pose proof (split_not_nil sep s) as Hs.
    destruct (split sep s) as [|h t]; [contradiction|].
    destruct t as [|h' t].
    + cbn [last] in *. cbn [split]. rewrite E, IH. reflexivity.
    + rewrite last_cons by discriminate.
      rewrite last_cons in IH by discriminate. exact IH.
Qed.

Lemma calls_app (t1 t2 : list (effect ChartData)) :
  calls ChartData (t1 ++ t2) = calls ChartData t1 ++ calls ChartData t2.
Proof.
  induction t1 as [|e t1 IH]; [reflexivity|].
  destruct e; cbn [app calls]; rewrite IH; reflexivity.
Qed.

Lemma calls_map_Call (cs : list (call ChartData)) :
  calls ChartData (map Call cs) = cs.
Proof.
  induction cs as [|c cs IH]; [reflexivity|].
  cbn [map calls]. rewrite IH. reflexivity.
Qed.

(** Lines that carry no event name leave the current kind at [message],
    so their dispatch distributes over concatenation. *)
Lemma dispatchLines_app (l1 l2 : list jsstring) :
  forallb (fun l => negb (startsWith l (js "event: "))) l1 = true ->
  dispatchLines (js "message") (l1 ++ l2)
  = dispatchLines (js "message") l1 ++ dispatchLines (js "message") l2.
Proof.
  induction l1 as [|l l1 IH]; intros H; [reflexivity|].
  cbn [forallb] in H. apply andb_prop in H. destruct H as [Hl H].
  apply negb_true_iff in Hl.
  cbn [app SSEClient.dispatchLines]. rewrite Hl.
  destruct (startsWith l (js "data: ")).
  - rewrite (IH H), app_assoc. reflexivity.
  - exact (IH H).
Qed.

Lemma removelast_app_split (sep : N) (l : list jsstring) (s : jsstring) :
  removelast (l ++ split sep s) = l ++ removelast (split sep s).
Proof. apply removelast_app, split_not_nil. Qed.

(** On a stream without [event:] lines, the handlers are invoked with the
    complete lines of the whole text, wherever the read boundaries fall. *)
Lemma readLoop_calls_without_event_lines (chunks : list jsstring) :
  forall buffer,
  split 10 buffer = [buffer] ->
  forallb (fun l => negb (startsWith l (js "event: ")))
          (split 10 (buffer ++ concat chunks)) = true ->
  calls ChartData (fst (readLoop buffer (map Chunk chunks)))
  = dispatchLines (js "message")
      (removelast (split 10 (buffer ++ concat chunks))).
Proof.
  induction chunks as [|c chunks IH]; intros buffer Hb Hev.
  - cbn [concat]. rewrite app_nil_r, Hb. reflexivity.
  - cbn [map SSEClient.readLoop concat].
    cbn [concat] in Hev. rewrite app_assoc in Hev. rewrite app_assoc.
    rewrite (split_app 10 (buffer ++ c) (concat chunks)) in Hev.
    rewrite (split_app 10 (buffer ++ c) (concat chunks)).
    rewrite forallb_app in Hev. apply andb_prop in Hev.
    destruct Hev as [Hev1 Hev2].
    specialize (IH (last (split 10 (buffer ++ c)) [])
                   (split_last 10 (buffer ++ c)) Hev2).
    destruct (readLoop (last (split 10 (buffer ++ c)) []) (map Chunk chunks))
      as [t o].
    cbn [fst] in *. cbn [calls]. rewrite calls_app, calls_map_Call, IH.
    rewrite removelast_app_split, dispatchLines_app by exact Hev1.
    reflexivity.
Qed.

(** Chunking invariance holds as long as no line names an event kind:
    every frame is then a [message] frame. *)
Lemma chunking_invariance_without_event_lines (chunks : list jsstring) :
  forallb (fun l => negb (startsWith l (js "event: ")))
          (split 10 (concat chunks)) = true ->
  calls ChartData (fst (readLoop [] (map Chunk chunks)))
  = calls ChartData (fst (readLoop [] [Chunk (concat chunks)])).
Proof.
  intros H.
  rewrite (readLoop_calls_without_event_lines chunks [] eq_refl H).
  change [Chunk (concat chunks)] with (map Chunk [concat chunks]).
  rewrite (readLoop_calls_without_event_lines [concat chunks] [] eq_refl)
    by (cbn [concat app]; rewrite app_nil_r; exact H).
  cbn [concat app]. rewrite app_nil_r. reflexivity.
Qed.

(** C3 (counterexample): after a [done] frame the rest of the chunk is
    still dispatched and the body is read again. *)
Lemma C3_counterexample :
  fst (SSEClient.stream unit (fun _ => None) None
        (streaming [js "event: done" ++ LF ++ js "data: " ++ LF
                      ++ js "data: late" ++ LF;
                    js "data: later" ++ LF]))
  = [Fetch; Read; Call OnDone; Call (OnMessage (js "late"));
     Read; Call (OnMessage (js "later")); Read]
  /\
  quietAfterTerminal unit
    (fst (SSEClient.stream unit (fun _ => None) None
        (streaming [js "event: done" ++ LF ++ js "data: " ++ LF
                      ++ js "data: late" ++ LF;
                    js "data: later" ++ LF])))
  = false.
Proof. split; reflexivity. Qed.

Lemma readLoop_chunks (chunks : list jsstring) : forall buffer,
  countReads ChartData (fst (readLoop buffer (map Chunk chunks)))
    = S (List.length chunks)
  /\ snd (readLoop buffer (map Chunk chunks)) = Returned.
Proof.
  induction chunks as [|c chunks IH]; intros buffer; [split; reflexivity|].
  cbn [map SSEClient.readLoop].
  specialize (IH (last (split 10 (buffer ++ c)) [])).
  destruct (readLoop (last (split 10 (buffer ++ c)) []) (map Chunk chunks))
    as [t o].
  cbn [fst snd] in *. destruct IH as [IH1 IH2]. split; [|exact IH2].
  cbn [SSEClient.countReads List.length]. f_equal.
  rewrite <- IH1. clear.
  induction (SSEClient.dispatchLines ChartData JSON_parse (js "message")
               (removelast (split 10 (buffer ++ c)))) as [|x l IHl];
    [reflexivity | exact IHl].
Qed.

(** C3 (amended): a [done] frame invokes [onDone] and an [error] frame
    invokes [onError] with its payload, and that is all the dispatch does:
    the lines after the frame are dispatched as usual, and the body is read
    until it ends, once per chunk and once more for the end. *)
Theorem C3_terminal_frame_does_not_stop :
  (forall cur data rest,
     dispatchLines cur (js "event: done" :: (js "data: " ++ data) :: rest)
     = OnDone :: dispatchLines (js "message") rest)
  /\ (forall cur data rest,
     dispatchLines cur (js "event: error" :: (js "data: " ++ data) :: rest)
     = OnError data :: dispatchLines (js "message") rest)
  /\ (forall buffer chunks,
     countReads ChartData (fst (readLoop buffer (map Chunk chunks)))
       = S (List.length chunks)
     /\ snd (readLoop buffer (map Chunk chunks)) = Returned).
Proof.
  split; [|split].
  - intros cur data rest.
    change (js "event: done") with (js "event: " ++ js "done").
    rewrite dispatch_frame. reflexivity.
  - intros cur data rest.
    change (js "event: error") with (js "event: " ++ js "error").
    rewrite dispatch_frame. reflexivity.
  - intros buffer chunks. apply readLoop_chunks.
Qed.

(** One failed attempt that is not the last: a wait of [2^attempt] seconds
    and the next attempt. *)
Lemma attempts_network_error (remaining : nat) (attempt : N)
    (env : N -> attempt_env) :
  fetched (env attempt) = NetworkError ->
  abortDuringWait (env attempt) = false ->
  attempt <> maxRetries ->
  attempts (S remaining) attempt (Some {| aborted := false |}) env
  = (Fetch :: Wait (2 ^ attempt * 1000)
       :: fst (attempts remaining (attempt + 1)
                 (Some {| aborted := false |}) env),
     snd (attempts remaining (attempt + 1)
            (Some {| aborted := false |}) env)).
Proof.
  intros Hf Hw Hne.
  cbn [SSEClient.attempts SSEClient.attemptBody aborted].
  rewrite Hf, Hw.
  destruct (N.eqb_spec attempt maxRetries) as [E|_]; [contradiction|].
  destruct (attempts remaining (attempt + 1) (Some {| aborted := false |}) env).
  reflexivity.
Qed.

(** C6: when every attempt fails on the network and nobody aborts, there
    are the initial attempt and exactly three retries, preceded by waits of
    1 s, 2 s and 4 s, and then one [onError] with the connectivity
    message. *)
Theorem C6_three_retries_with_backoff
    (field : option AbortController) (env : N -> attempt_env) :
  (forall attempt, attempt <= maxRetries ->
     fetched (env attempt) = NetworkError
     /\ abortDuringWait (env attempt) = false) ->
  fst (stream field env)
  = [Fetch; Wait 1000; Fetch; Wait 2000; Fetch; Wait 4000; Fetch;
     Call (OnError MSG_NETWORK)].
Proof.
  intros H. unfold SSEClient.stream, maxRetries in *.
  change (N.to_nat 3) with 3%nat.
  destruct (H 0 ltac:(lia)) as [F0 W0].
  destruct (H 1 ltac:(lia)) as [F1 W1].
  destruct (H 2 ltac:(lia)) as [F2 W2].
  destruct (H 3 ltac:(lia)) as [F3 _].
  rewrite (attempts_network_error _ 0 env F0 W0) by (unfold maxRetries; lia).
  rewrite (attempts_network_error _ 1 env F1 W1) by (unfold maxRetries; lia).
  rewrite (attempts_network_error _ 2 env F2 W2) by (unfold maxRetries; lia).
  cbn [fst N.add Pos.add Pos.succ].
  cbn [SSEClient.attempts SSEClient.attemptBody aborted].
  rewrite F3. reflexivity.
Qed.

(** C7 (evaluation at the failing input): [abort()] clears the field the
    loop reads its signal from.  When it runs during the first backoff
    wait, each later attempt throws on the cleared field before it
    fetches, is taken for a connectivity failure, waits again, and the
    last one invokes [onError]. *)
Theorem C7_abort_during_backoff_reaches_onError
    (field : option AbortController) :
  stream field abortedWhileWaiting
  = ([Fetch; Wait 1000; Wait 2000; Wait 4000; Call (OnError MSG_NETWORK)],
     None).
Proof. reflexivity. Qed.

(** An abort during the fetch or during a read of the body ends the call
    with no handler invoked and no retry. *)
Lemma abort_during_fetch_is_silent (field : option AbortController)
    (env : N -> attempt_env) :
  fetched (env 0) = FetchAborted ->
  stream field env = ([Fetch], None).
Proof.
  intros H. unfold SSEClient.stream.
  cbn [SSEClient.attempts SSEClient.attemptBody aborted N.to_nat
       maxRetries Pos.to_nat Pos.iter_op Nat.add].
  rewrite H. reflexivity.
Qed.

End SSEClientFacts.

(** C6 at the environment in which every fetch is refused. *)
Lemma C6_witness :
  (forall attempt, attempt <= maxRetries ->
     fetched (always NetworkError attempt) = NetworkError
     /\ abortDuringWait (always NetworkError attempt) = false)
  /\ fst (SSEClient.stream unit (fun _ => None) None (always NetworkError))
     = [Fetch; Wait 1000; Fetch; Wait 2000; Fetch; Wait 4000; Fetch;
        Call (OnError MSG_NETWORK)].
Proof.
  assert (H : forall attempt, attempt <= maxRetries ->
     fetched (always NetworkError attempt) = NetworkError
     /\ abortDuringWait (always NetworkError attempt) = false)
    by (intros attempt _; split; reflexivity).
  split; [exact H|].
  exact (C6_three_retries_with_backoff unit (fun _ => None) None
           (always NetworkError) H).
Defined.

(** C9 at the event kind [ping], written with blanks around it. *)
Lemma C9_witness :
  JS.eqb (trim (js " ping ")) (js "message") = false
  /\ JS.eqb (trim (js " ping ")) (js "chart") = false
  /\ JS.eqb (trim (js " ping ")) (js "done") = false
  /\ JS.eqb (trim (js " ping ")) (js "error") = false
  /\ SSEClient.handleEvent unit (fun _ => None) (trim (js " ping ")) (js "x")
     = []
  /\ SSEClient.dispatchLines unit (fun _ => None) (js "message")
       ((js "event: " ++ js " ping ") :: (js "data: " ++ js "x")
          :: [js "data: y"])
     = SSEClient.dispatchLines unit (fun _ => None) (js "message")
         [js "data: y"].
Proof.
  do 4 (split; [reflexivity|]).
  exact (C9_unknown_event_ignored unit (fun _ => None)
           (js " ping ") (js "x") (js "message") [js "data: y"]
           eq_refl eq_refl eq_refl eq_refl).
Defined.

(* ===================================================================== *)
(** ** Properties of SpoChatbot *)
(* ===================================================================== *)

Section SpoChatbotFacts.

Variable ChartData : Type.
Variable JSON_parse : jsstring -> option ChartData.
Variable Date_now : N -> N.
Variable parseHTML : jsstring -> list (element ChartData).

Local Abbreviation state := (SpoChatbot.state ChartData).
Local Abbreviation submit := (SpoChatbot.submit ChartData Date_now parseHTML).
Local Abbreviation handler :=
  (SpoChatbot.handler ChartData Date_now parseHTML).
Local Abbreviation handleSend :=
  (SpoChatbot.handleSend ChartData JSON_parse Date_now parseHTML).
Local Abbreviation handleRetry :=
  (SpoChatbot.handleRetry ChartData JSON_parse Date_now parseHTML).
Local Abbreviation initSession := (SpoChatbot.initSession ChartData).
Local Abbreviation handleStreamError :=
  (SpoChatbot.handleStreamError ChartData).

(** A response with a failure status ends the stream with one [onError]
    that carries the status. *)
Lemma stream_failure_status (field : option AbortController)
    (status : N) (detail : jsstring) (body : option (list read_result)) :
  ok status = false ->
  SSEClient.stream ChartData JSON_parse field
    (always (Response status (Text detail) body))
  = ([Fetch; Call (OnError (js "HTTP " ++ numberToString status
                            ++ js ": " ++ detail))],
     Some {| aborted := false |}).
Proof.
  intros H. unfold SSEClient.stream.
  cbn [SSEClient.attempts SSEClient.attemptBody aborted N.to_nat
       maxRetries Pos.to_nat Pos.iter_op Nat.add always fetched].
  rewrite H. reflexivity.
Qed.

(** The turn that such a response ends. *)
Lemma handleSend_failure_status (s : state) (text detail : jsstring)
    (status : N) (body : option (list read_result)) :
  ok status = false ->
  handleSend text (always (Response status (Text detail) body)) s
  = handler text
      (setSse ChartData (Some {| aborted := false |}) (submit text s))
      (OnError (js "HTTP " ++ numberToString status ++ js ": " ++ detail)).
Proof.
  intros H. unfold SpoChatbot.handleSend.
  rewrite (stream_failure_status _ status detail body H). reflexivity.
Qed.

Lemma includes_410_401 (detail : jsstring) :
  includes (js "HTTP " ++ numberToString 410 ++ js ": " ++ detail) (js "401")
  = includes detail (js "401").
Proof. reflexivity. Qed.

Lemma includes_410_410 (detail : jsstring) :
  includes (js "HTTP " ++ numberToString 410 ++ js ": " ++ detail) (js "410")
  = true.
Proof. reflexivity. Qed.

(** C4 (counterexample): a streaming turn answered with status 410 shows
    the session-expired message and requests no new session. *)
Lemma C4_counterexample :
  error unit
    (SpoChatbot.handleSend unit (fun _ => None) (fun n => n)
       (sampleParser unit) (js "hi")
       (always (Response 410 (Text (js "Gone")) None))
       (rendered unit sampleConfig))
  = Some MSG_SESSION_EXPIRED
  /\
  requests unit
    (SpoChatbot.handleSend unit (fun _ => None) (fun n => n)
       (sampleParser unit) (js "hi")
       (always (Response 410 (Text (js "Gone")) None))
       (rendered unit sampleConfig))
  = [StreamRequest (js "https://chat.example/api/chat/stream")
       {| message := js "hi"; context_type := js "badminton";
          context := Some [(js "match_id", js "42")] |}
       (js "jwt")]
  /\
  messagesEl unit (ui unit
    (SpoChatbot.handleSend unit (fun _ => None) (fun n => n)
       (sampleParser unit) (js "hi")
       (always (Response 410 (Text (js "Gone")) None))
       (rendered unit sampleConfig)))
  = [MessageEl unit {| id := js "msg-1"; msg_role := user;
                       content := js "hi"; timestamp := 1 |};
     AssistantEl unit [] [];
     ErrorEl unit MSG_SESSION_EXPIRED false].
Proof. repeat split; vm_compute; reflexivity. Qed.

(** C4 (amended): a 410 answer to session creation is handled silently,
    the failed call leaves nothing but its request behind and the session
    is requested again; a 410 answer to a streaming turn shows the
    session-expired message, without a retry button, and requests no
    session. *)
Theorem C4_session_expired_by_path (s : state) (text detail : jsstring)
    (answers : list api_outcome) :
  includes detail (js "401") = false ->
  initSession (ThrowsApiError 410 :: answers) s
  = initSession answers
      (send ChartData
         (CreateSession {| cs_context_type := contextType (config _ s);
                           cs_context := contextParams (config _ s) |}) s)
  /\
  (let s' := handleSend text (always (Response 410 (Text detail) None)) s in
   error _ s' = Some MSG_SESSION_EXPIRED
   /\ messagesEl _ (ui _ s')
      = messagesEl _ (ui _ (submit text s))
          ++ [ErrorEl _ MSG_SESSION_EXPIRED false]
   /\ requests _ s'
      = requests _ s
          ++ [StreamRequest (streamUrl (config _ s))
                (buildChatRequest (config _ s) text) (token (config _ s))]
   /\ sessionId _ s' = sessionId _ s).
Proof.
  intros H401. split; [reflexivity|].
  cbv zeta. rewrite handleSend_failure_status by reflexivity.
  unfold SpoChatbot.handler, SpoChatbot.handleStreamError.
  rewrite includes_410_401, H401, includes_410_410.
  repeat split.
Qed.

(** C5 (evaluation at the failing input): a streaming turn answered with
    status 403 is classified with the unspecific stream errors: the retry
    button is offered and the input is left enabled.  Session creation
    answered with 403 shows the forbidden message without a retry button
    and disables the input. *)
Theorem C5_stream_403_offers_retry (s : state) (text : jsstring)
    (answers : list api_outcome) :
  (let s' :=
     handleSend text (always (Response 403 (Text (js "Forbidden")) None)) s in
   error _ s' = Some MSG_STREAM
   /\ messagesEl _ (ui _ s')
      = messagesEl _ (ui _ (submit text s)) ++ [ErrorEl _ MSG_STREAM true]
   /\ inputDisabled _ (ui _ s') = false)
  /\
  (let s' := initSession (ThrowsApiError 403 :: answers) s in
   error _ s' = Some MSG_FORBIDDEN
   /\ messagesEl _ (ui _ s')
      = messagesEl _ (ui _ s) ++ [ErrorEl _ MSG_FORBIDDEN false]
   /\ inputDisabled _ (ui _ s') = true).
Proof.
  split.
  - cbv zeta. rewrite handleSend_failure_status by reflexivity.
    repeat split.
  - repeat split.
Qed.










End SpoChatbotFacts.

(** C4 at a turn answered with [410 Gone] and at a session creation
    answered with 410 and then with a session. *)
Lemma C4_witness :
  includes (js "Gone") (js "401") = false
  /\ SpoChatbot.initSession unit [ThrowsApiError 410; Resolves (js "s-2")]
       (rendered unit sampleConfig)
     = SpoChatbot.initSession unit [Resolves (js "s-2")]
         (send unit
            (CreateSession
               {| cs_context_type := js "badminton";
                  cs_context := [(js "match_id", js "42")] |})
            (rendered unit sampleConfig))
  /\ error unit
       (SpoChatbot.handleSend unit (fun _ => None) (fun n => n)
          (sampleParser unit) (js "hi")
          (always (Response 410 (Text (js "Gone")) None))
          (rendered unit sampleConfig))
     = Some MSG_SESSION_EXPIRED.
Proof.
  split; [reflexivity|].
  pose proof (C4_session_expired_by_path unit (fun _ => None) (fun n => n)
                (sampleParser unit)
                (rendered unit sampleConfig) (js "hi") (js "Gone")
                [Resolves (js "s-2")] eq_refl) as H.
  split; [exact (proj1 H) | exact (proj1 (proj2 H))].
Defined.


(* ===================================================================== *)
(** ** The matcher consumes what it matches *)
(* ===================================================================== *)

Section MatcherFacts.

Lemma lit_match_caseless (fl : flags) (p c : N) :
  caseless p = true -> lit_match fl p c = true -> c = p.
Proof.
  unfold caseless, lit_match, toUpper, isUpper, isLower.
  intros Hp H.
  apply negb_true_iff, orb_false_iff in Hp. destruct Hp as [Hu Hl].
  rewrite Hl in H.
  destruct (ignoreCase fl).
  - destruct ((97 <=? c) && (c <=? 122)) eqn:Hc.
    + apply andb_prop in Hc. destruct Hc as [H1 H2].
      apply N.leb_le in H1, H2. apply N.eqb_eq in H.
      apply andb_false_iff in Hu.
      destruct Hu as [Hu|Hu]; apply N.leb_gt in Hu; lia.
    + apply N.eqb_eq in H. congruence.
  - apply N.eqb_eq in H. congruence.
Qed.

Lemma advances_step (fl : flags) (p : N -> bool) (r : regex)
    (x : mstate) (k : mstate -> option mstate) (z : mstate) :
  (forall c d, caseless c = true -> requires c r = true -> p d = true -> d = c) ->
  step p x k = Some z ->
  exists y, k y = Some z /\ advances r x y.
Proof.
  intros Hreq H. unfold step in H.
  destruct (after x) as [|d rest] eqn:E; [discriminate|].
  destruct (p d) eqn:Hp; [|discriminate].
  eexists. split; [exact H|].
  exists [d]. cbn [after before app rev]. repeat split; [exact E|].
  intros c Hc Hr. left. exact (Hreq c d Hc Hr Hp).
Qed.

Lemma advances_refl (r : regex) (x : mstate) :
  (forall c, requires c r = false) -> advances r x x.
Proof.
  intros H. exists []. repeat split.
  intros c _ Hr. rewrite H in Hr. discriminate.
Qed.

Lemma advances_weaken (r r' : regex) (x y : mstate) :
  (forall c, requires c r' = true -> requires c r = true) ->
  advances r x y -> advances r' x y.
Proof.
  intros H [w [H1 [H2 H3]]]. exists w. repeat split; auto.
Qed.

Lemma advances_trans (r1 r2 r : regex) (x y z : mstate) :
  (forall c, requires c r = true ->
     requires c r1 = true \/ requires c r2 = true) ->
  advances r1 x y -> advances r2 y z -> advances r x z.
Proof.
  intros H [w1 [A1 [B1 C1]]] [w2 [A2 [B2 C2]]].
  exists (w1 ++ w2). repeat split.
  - rewrite A1, A2, app_assoc. reflexivity.
  - rewrite B2, B1, rev_app_distr, app_assoc. reflexivity.
  - intros c Hc Hr. apply in_or_app.
    destruct (H c Hr) as [Hr1|Hr2]; [left; auto | right; auto].
Qed.

End MatcherFacts.
Section MatcherFacts2.

Lemma m_Quant (fl : flags) (mn : nat) (mx : option nat) (greedy : bool)
    (r : regex) (x : mstate) (k : mstate -> option mstate) :
  m fl (Quant mn mx greedy r) x k
  = repeatMatcher (m fl r) greedy (S (mn + List.length (after x))) mn mx x k.
Proof. reflexivity. Qed.


Lemma m_advances (fl : flags) (r : regex) :
  forall x k z, m fl r x k = Some z ->
  exists y, k y = Some z /\ advances r x y.
Proof.
  induction r as [| p | | neg items | a IHa b IHb | mn mx greedy r' IH
                  | n r' IH | | | ]; intros x k z H.
  - exists x. split; [exact H | apply advances_refl; reflexivity].
  - apply (advances_step fl _ (Lit p)) in H; [exact H|].
    intros c d Hc Hr Hd. cbn [requires] in Hr. apply N.eqb_eq in Hr.
    subst c. exact (lit_match_caseless fl p d Hc Hd).
  - apply (advances_step fl _ Dot) in H; [exact H|].
    intros c d _ Hr. discriminate Hr.
  - apply (advances_step fl _ (Class neg items)) in H; [exact H|].
    intros c d _ Hr. discriminate Hr.
  - apply IHa in H. destruct H as [y1 [H1 A1]].
    apply IHb in H1. destruct H1 as [y2 [H2 A2]].
    exists y2. split; [exact H2|].
    apply (advances_trans a b _ x y1 y2); [|exact A1|exact A2].
    intros c Hr. cbn [requires] in Hr. apply orb_prop in Hr. exact Hr.
  - rewrite m_Quant in H. revert H.
    generalize (S (mn + List.length (after x)))%nat as fuel.
    intros fuel. revert mn mx x k z.
    induction fuel as [|fuel IHf]; intros mn mx x k z H;
      [discriminate H|].
    cbn [repeatMatcher] in H.
    destruct (max_zero mx) eqn:Hmx.
    { exists x. split; [exact H|]. apply advances_refl.
      intros c. cbn [requires]. rewrite Hmx.
      destruct (Nat.eqb mn 0); reflexivity. }
    assert (Hd : forall y1,
      (if (Nat.eqb mn 0) &&
          (Nat.eqb (List.length (after y1)) (List.length (after x)))
       then None
       else repeatMatcher (m fl r') greedy fuel (pred mn) (max_pred mx) y1 k)
      = Some z ->
      advances r' x y1 ->
      exists y, k y = Some z /\ advances (Quant mn mx greedy r') x y).
    { intros y1 H1 A1.
      destruct ((Nat.eqb mn 0) &&
          (Nat.eqb (List.length (after y1)) (List.length (after x))));
        [discriminate|].
      apply IHf in H1. destruct H1 as [y [H2 A2]].
      exists y. split; [exact H2|].
      apply (advances_trans r' (Quant (pred mn) (max_pred mx) greedy r')
               _ x y1 y); [|exact A1|exact A2].
      intros c Hr. left. cbn [requires] in Hr.
      apply andb_prop in Hr. apply Hr. }
    assert (Hk : k x = Some z -> Nat.eqb mn 0 = true ->
      exists y, k y = Some z /\ advances (Quant mn mx greedy r') x y).
    { intros H1 Hmn. exists x. split; [exact H1|]. apply advances_refl.
      intros c. cbn [requires]. rewrite Hmn. reflexivity. }
    destruct (Nat.eqb mn 0) eqn:Hmn; cbn [negb] in H.
    + destruct greedy.
      * match type of H with
        | match ?e with _ => _ end = _ => destruct e as [z'|] eqn:Hm
        end.
        -- injection H as H; subst z'. apply IH in Hm.
           destruct Hm as [y1 [H1 A1]]. exact (Hd y1 H1 A1).
        -- exact (Hk H eq_refl).
      * destruct (k x) as [z'|] eqn:Hkx.
        -- injection H as H; subst z'. exact (Hk eq_refl eq_refl).
        -- apply IH in H. destruct H as [y1 [H1 A1]]. exact (Hd y1 H1 A1).
    + apply IH in H. destruct H as [y1 [H1 A1]]. exact (Hd y1 H1 A1).
  - apply IH in H. destruct H as [y [H1 A1]].
    eexists. split; [exact H1|].
    destruct A1 as [w [A [B C]]]. exists w. cbn [after before].
    repeat split; assumption.
  - cbn [m] in H. destruct (at_bol fl x); [|discriminate].
    exists x. split; [exact H | apply advances_refl; reflexivity].
  - cbn [m] in H. destruct (at_eol fl x); [|discriminate].
    exists x. split; [exact H | apply advances_refl; reflexivity].
  - cbn [m] in H.
    destruct (xorb (word_before x) (word_after x)); [|discriminate].
    exists x. split; [exact H | apply advances_refl; reflexivity].
Qed.

End MatcherFacts2.
Section ReplaceFacts.

Lemma firstn_app_length {A} (w r : list A) :
  firstn (List.length (w ++ r) - List.length r) (w ++ r) = w.
Proof.
  rewrite length_app, Nat.add_sub.
  rewrite firstn_app, Nat.sub_diag, firstn_all. cbn [firstn].
  apply app_nil_r.
Qed.

(** The text a match reports is the prefix it consumed. *)
Lemma match_here_spec (fl : flags) (r : regex) (bef aft matched : jsstring)
    (cs : list (nat * jsstring)) (y : mstate) :
  match_here fl r bef aft = Some (matched, cs, y) ->
  aft = matched ++ after y
  /\ before y = rev matched ++ bef
  /\ forall c, caseless c = true -> requires c r = true -> In c matched.
Proof.
  unfold match_here. intros H.
  destruct (m fl r {| before := bef; after := aft; caps := [] |} Some)
    as [z|] eqn:Hm; [|discriminate].
  apply m_advances in Hm. destruct Hm as [y' [Hy [w [A [B C]]]]].
  injection Hy as Hy. subst y'. cbn [after before] in A, B.
  injection H as H1 H2 H3. subst y cs.
  rewrite A, firstn_app_length in H1. subst matched.
  repeat split; assumption.
Qed.

(** A pattern that requires a character finds no match in a text without
    it. *)
Lemma match_here_without (fl : flags) (r : regex) (c : N)
    (bef aft : jsstring) :
  caseless c = true -> requires c r = true -> ~ In c aft ->
  match_here fl r bef aft = None.
Proof.
  intros Hc Hr Hn.
  destruct (match_here fl r bef aft) as [[[matched cs] y]|] eqn:H;
    [|reflexivity].
  apply match_here_spec in H. destruct H as [A [_ C]].
  exfalso. apply Hn. rewrite A. apply in_or_app. left. exact (C c Hc Hr).
Qed.

Lemma replace_from_without (fl : flags) (r : regex) (c : N)
    (f : jsstring -> list (nat * jsstring) -> jsstring) (fuel : nat) :
  caseless c = true -> requires c r = true ->
  forall bef aft, ~ In c aft -> replace_from fuel fl r f bef aft = aft.
Proof.
  intros Hc Hr. induction fuel as [|fuel IH]; intros bef aft Hn;
    [reflexivity|].
  cbn [replace_from]. rewrite (match_here_without fl r c bef aft Hc Hr Hn).
  destruct aft as [|d rest]; [reflexivity|].
  rewrite IH; [reflexivity|]. intros Hin. apply Hn. right. exact Hin.
Qed.

(** A global replacement leaves a text without a required character of
    the pattern as it is. *)
Lemma replaceAll_without (fl : flags) (r : regex) (c : N)
    (f : jsstring -> list (nat * jsstring) -> jsstring) (s : jsstring) :
  caseless c = true -> requires c r = true -> ~ In c s ->
  replaceAll fl r f s = s.
Proof.
  intros Hc Hr Hn. unfold replaceAll.
  exact (replace_from_without fl r c f _ Hc Hr [] s Hn).
Qed.

Lemma subseq_refl {A} (l : list A) : subseq l l.
Proof. induction l; constructor; assumption. Qed.

Lemma subseq_nil_l {A} (l : list A) : subseq [] l.
Proof. induction l; constructor; assumption. Qed.

Lemma subseq_app {A} (a1 b1 a2 b2 : list A) :
  subseq a1 b1 -> subseq a2 b2 -> subseq (a1 ++ a2) (b1 ++ b2).
Proof.
  intros H1 H2. induction H1; cbn [app]; [exact H2| |];
    constructor; assumption.
Qed.

Lemma subseq_trans {A} (a b c : list A) :
  subseq a b -> subseq b c -> subseq a c.
Proof.
  intros Hab Hbc. revert a Hab.
  induction Hbc as [|x b c Hbc IH|x b c Hbc IH]; intros a Hab.
  - exact Hab.
  - constructor. apply IH. exact Hab.
  - inversion Hab; subst.
    + apply subseq_skip, IH. assumption.
    + apply subseq_keep, IH. assumption.
Qed.

Lemma subseq_length {A} (a b : list A) :
  subseq a b -> (List.length a <= List.length b)%nat.
Proof. induction 1; cbn [List.length]; lia. Qed.

Lemma subseq_In {A} (a b : list A) (x : A) :
  subseq a b -> In x a -> In x b.
Proof.
  induction 1; intros Hin.
  - exact Hin.
  - right. auto.
  - destruct Hin as [E|Hin]; [left; exact E | right; auto].
Qed.

(** A global replacement whose replacements only delete from the matched
    text only deletes from the whole text. *)
Lemma replace_from_subseq (fl : flags) (r : regex)
    (f : jsstring -> list (nat * jsstring) -> jsstring) :
  (forall matched cs, subseq (f matched cs) matched) ->
  forall fuel bef aft, subseq (replace_from fuel fl r f bef aft) aft.
Proof.
  intros Hf. induction fuel as [|fuel IH]; intros bef aft;
    [apply subseq_refl|].
  cbn [replace_from].
  destruct (match_here fl r bef aft) as [[[matched cs] y]|] eqn:H.
  - apply match_here_spec in H. destruct H as [A _].
    destruct matched as [|d matched].
    + pose proof (Hf [] cs) as H0. inversion H0. cbn [app].
      destruct aft as [|e rest]; [constructor|].
      apply subseq_keep, IH.
    + rewrite A. apply subseq_app; [apply Hf | apply IH].
  - destruct aft as [|e rest]; [constructor|].
    apply subseq_keep, IH.
Qed.

End ReplaceFacts.
Section MarkdownRendererMore.

Lemma match_here_Lit (c a : N) (bef aft : jsstring) :
  match_here g (Lit c) bef (a :: aft)
  = if c =? a
    then Some ([a], [], {| before := a :: bef; after := aft; caps := [] |})
    else None.
Proof.
  unfold match_here. cbn [m step after before caps lit_match ignoreCase g].
  destruct (c =? a); [|reflexivity].
  cbn [after]. change (a :: aft) with ([a] ++ aft).
  rewrite firstn_app_length. reflexivity.
Qed.

(** Replacing one character globally is a character-wise map. *)
Lemma replaceChar_flat_map (c : N) (t s : jsstring) :
  replaceChar c t s = flat_map (fun a => if c =? a then t else [a]) s.
Proof.
  unfold replaceChar, replaceAll.
  assert (H : forall fuel s bef, (List.length s < fuel)%nat ->
    replace_from fuel g (Lit c) (fun _ _ => t) bef s
    = flat_map (fun a => if c =? a then t else [a]) s).
  { induction fuel as [|fuel IH]; intros s' bef Hlen; [lia|].
    destruct s' as [|a s']; [reflexivity|].
    cbn [replace_from flat_map]. rewrite match_here_Lit.
    cbn [List.length] in Hlen.
    destruct (c =? a).
    - cbn [after before]. rewrite IH by lia. reflexivity.
    - rewrite IH by lia. reflexivity. }
  apply H. lia.
Qed.

Lemma escapeHtml_flat_map (text : jsstring) :
  escapeHtml text = flat_map escapeChar text.
Proof.
  unfold escapeHtml. rewrite !replaceChar_flat_map.
  induction text as [|a text IH]; [reflexivity|].
  cbn [flat_map]. rewrite !flat_map_app, IH. f_equal.
  unfold escapeChar.
  destruct (N.eqb_spec 38 a) as [E|N1]; [subst a; reflexivity|].
  destruct (N.eqb_spec a 38) as [E|_]; [congruence|].
  cbn [flat_map app].
  destruct (N.eqb_spec 60 a) as [E|N2]; [subst a; reflexivity|].
  destruct (N.eqb_spec a 60) as [E|_]; [congruence|].
  cbn [flat_map app].
  destruct (N.eqb_spec 62 a) as [E|N3]; [subst a; reflexivity|].
  destruct (N.eqb_spec a 62) as [E|_]; [congruence|].
  cbn [flat_map app].
  destruct (N.eqb_spec 34 a) as [E|N4]; [subst a; reflexivity|].
  destruct (N.eqb_spec a 34) as [E|_]; [congruence|].
  reflexivity.
Qed.

(** X1: [escapeHtml] works character by character: escaping a text piece by
    piece gives the escaped whole, and an entity it writes is not escaped
    again. *)
Theorem escapeHtml_app (a b : jsstring) :
  escapeHtml (a ++ b) = escapeHtml a ++ escapeHtml b.
Proof. rewrite !escapeHtml_flat_map. apply flat_map_app. Qed.

Lemma escapeChar_safe (a c : N) :
  In c (escapeChar a) -> c <> 60 /\ c <> 62 /\ c <> 34.
Proof.
  unfold escapeChar.
  destruct (N.eqb_spec a 38); [|destruct (N.eqb_spec a 60);
    [|destruct (N.eqb_spec a 62); [|destruct (N.eqb_spec a 34)]]];
    cbn; intros H;
    repeat (destruct H as [H|H]; [subst c; repeat split; lia|]);
    try contradiction.
Qed.

(** X2: The output of [escapeHtml] holds no [<], no [>] and no double quote,
    whatever the input. *)
Theorem escapeHtml_no_markup (text : jsstring) :
  ~ In 60 (escapeHtml text) /\ ~ In 62 (escapeHtml text)
  /\ ~ In 34 (escapeHtml text).
Proof.
  rewrite escapeHtml_flat_map.
  assert (H : forall c, In c (flat_map escapeChar text) ->
                        c <> 60 /\ c <> 62 /\ c <> 34).
  { intros c Hin. apply in_flat_map in Hin. destruct Hin as [a [_ Ha]].
    exact (escapeChar_safe a c Ha). }
  repeat split; intros Hin; apply H in Hin; lia.
Qed.

(** X3: [sanitize] only deletes: its result is its argument with some
    characters removed, in the same order. *)
Theorem sanitize_only_deletes (html : jsstring) :
  subseq (sanitize html) html.
Proof.
  unfold sanitize, replaceAll. cbv zeta.
  eapply subseq_trans; [apply replace_from_subseq|].
  { intros matched cs. apply subseq_nil_l. }
  eapply subseq_trans; [apply replace_from_subseq|].
  { intros matched cs. apply subseq_nil_l. }
  apply replace_from_subseq.
  intros matched cs.
  destruct (has ALLOWED_TAGS (map toLower (capture 1 cs)));
    [apply subseq_refl | apply subseq_nil_l].
Qed.

End MarkdownRendererMore.
Section RenderPlain.

Variable text : jsstring.
Hypothesis plain : forall c, In c markupChars -> ~ In c text.

Ltac absent := apply plain; vm_compute; tauto.

Lemma parse_plain : parse text = js "<p>" ++ text ++ js "</p>".
Proof.
  unfold parse, parseTables, parseLists. cbv zeta.
  rewrite (replaceAll_without g re_codeBlock 96) by (reflexivity || absent).
  rewrite (replaceAll_without g re_inlineCode 96) by (reflexivity || absent).
  rewrite (replaceAll_without gm (re_header "####") 35)
    by (reflexivity || absent).
  rewrite (replaceAll_without gm (re_header "###") 35)
    by (reflexivity || absent).
  rewrite (replaceAll_without gm (re_header "##") 35)
    by (reflexivity || absent).
  rewrite (replaceAll_without gm (re_header "#") 35)
    by (reflexivity || absent).
  rewrite (replaceAll_without g re_bold 42) by (reflexivity || absent).
  rewrite (replaceAll_without g re_italic 42) by (reflexivity || absent).
  rewrite (replaceAll_without gm tableRegex 124) by (reflexivity || absent).
  rewrite (replaceAll_without gm re_ulBlock 45) by (reflexivity || absent).
  rewrite (replaceAll_without gm re_olBlock 46) by (reflexivity || absent).
  rewrite (replaceAll_without g re_blankLines 10) by (reflexivity || absent).
  rewrite (replaceAll_without g (Lit 10) 10) by (reflexivity || absent).
  assert (H : startsWith text (js "<") = false).
  { destruct text as [|c t] eqn:E; [reflexivity|].
    assert (Hc : c <> 60).
    { intros ->. apply (plain 60); [vm_compute; tauto | left; reflexivity]. }
    change (js "<") with [60]. cbn [startsWith].
    destruct (N.eqb_spec 60 c); [congruence | reflexivity]. }
  rewrite H. reflexivity.
Qed.

End RenderPlain.
Section SanitizeParagraph.

Lemma tag_needs_lt (bef aft : jsstring) (d : N) :
  d <> 60 -> match_here gi re_tag bef (d :: aft) = None.
Proof.
  intros Hd. unfold match_here.
  change re_tag with
    (Seq (Lit 60) (RegExp.seq
       [ opt (Lit 47);
         Group 1 (Seq (Class false [CRange 97 122; CRange 65 90])
                      (star (Class false
                         [CRange 97 122; CRange 65 90; CRange 48 57])));
         WordBoundary; star (Class true [CChar 62]); Lit 62 ])).
  cbn [m step after].
  destruct (lit_match gi 60 d) eqn:E; [|reflexivity].
  apply lit_match_caseless in E; [contradiction | reflexivity].
Qed.

Lemma tag_open_p (bef rest : jsstring) :
  match_here gi re_tag bef (js "<p>" ++ rest)
  = Some (js "<p>", [(1%nat, js "p")],
          {| before := rev (js "<p>") ++ bef; after := rest;
             caps := [(1%nat, js "p")] |}).
Proof.
  unfold match_here.
  cbv -[Nat.sub firstn List.length].
  change (112 :: 62 :: rest) with ([112] ++ 62 :: rest).
  change (60 :: [112] ++ 62 :: rest) with ([60; 112; 62] ++ rest).
  rewrite !firstn_app_length. reflexivity.
Qed.

Lemma replace_tag_skip (t : jsstring) :
  (forall d, In d t -> d <> 60) ->
  forall fuel bef rest,
  replace_from (List.length t + fuel) gi re_tag keepAllowed bef (t ++ rest)
  = t ++ replace_from fuel gi re_tag keepAllowed (rev t ++ bef) rest.
Proof.
  induction t as [|d t IH]; intros Ht fuel bef rest; [reflexivity|].
  cbn [List.length Nat.add app replace_from].
  rewrite tag_needs_lt by (apply Ht; left; reflexivity).
  rewrite IH by (intros e He; apply Ht; right; exact He).
  cbn [rev]. rewrite <- app_assoc. reflexivity.
Qed.

Lemma replace_tag_paragraph (text : jsstring) :
  ~ In 60 text ->
  replaceAll gi re_tag keepAllowed (js "<p>" ++ text ++ js "</p>")
  = js "<p>" ++ text ++ js "</p>".
Proof.
  intros H60. unfold replaceAll.
  replace (S (List.length (js "<p>" ++ text ++ js "</p>")))
    with (S (List.length text + 7))%nat
    by (rewrite !length_app;
        change (List.length (js "<p>")) with 3%nat;
        change (List.length (js "</p>")) with 4%nat; lia).
  cbn [replace_from]. rewrite tag_open_p.
  change (js "<p>") with [60; 112; 62] at 1.
  cbv iota beta. cbn [after before].
  change (keepAllowed [60; 112; 62] [(1%nat, js "p")]) with (js "<p>").
  f_equal.
  rewrite replace_tag_skip
    by (intros d Hd E; apply H60; rewrite <- E; exact Hd).
  f_equal.
Qed.

Lemma sanitize_paragraph (text : jsstring) :
  ~ In 60 text -> ~ In 61 text -> ~ In 58 text ->
  sanitize (js "<p>" ++ text ++ js "</p>") = js "<p>" ++ text ++ js "</p>".
Proof.
  intros H60 H61 H58. unfold sanitize. cbv zeta.
  fold keepAllowed. rewrite (replace_tag_paragraph text H60).
  assert (Hin : forall c, c <> 60 -> c <> 112 -> c <> 62 -> c <> 47 ->
                  ~ In c text -> ~ In c (js "<p>" ++ text ++ js "</p>")).
  { intros c A B C D Hn Hin. apply in_app_or in Hin.
    destruct Hin as [Hin|Hin].
    - vm_compute in Hin. intuition congruence.
    - apply in_app_or in Hin. destruct Hin as [Hin|Hin]; [auto|].
      vm_compute in Hin. intuition congruence. }
  rewrite (replaceAll_without gi re_onAttr 61)
    by (reflexivity || (apply Hin; [lia..|exact H61])).
  rewrite (replaceAll_without gi re_javascript 58)
    by (reflexivity || (apply Hin; [lia..|exact H58])).
  reflexivity.
Qed.

End SanitizeParagraph.

(** X4: Text without a markdown or markup character ([markupChars]) is
    rendered as one paragraph that holds it unchanged. *)
Theorem render_plain_text (text : jsstring) :
  text <> [] ->
  (forall c, In c markupChars -> ~ In c text) ->
  render text = js "<p>" ++ text ++ js "</p>".
Proof.
  intros Hne plain. unfold render.
  destruct text as [|c t] eqn:E; [contradiction|]. cbn [truthy negb].
  rewrite <- E in *. rewrite (parse_plain text plain).
  apply sanitize_paragraph; apply plain; vm_compute; tauto.
Qed.

Lemma render_plain_text_witness :
  js "Total 3 sets" <> []
  /\ (forall c, In c markupChars -> ~ In c (js "Total 3 sets"))
  /\ render (js "Total 3 sets") = js "<p>Total 3 sets</p>".
Proof.
  assert (Hne : js "Total 3 sets" <> []) by discriminate.
  assert (Hp : forall c, In c markupChars -> ~ In c (js "Total 3 sets")).
  { intros c Hc Hin. vm_compute in Hc, Hin.
    repeat (destruct Hc as [Hc|Hc];
            [subst c; intuition discriminate|]).
    exact Hc. }
  split; [exact Hne|]. split; [exact Hp|].
  exact (render_plain_text (js "Total 3 sets") Hne Hp).
Defined.
(* ===================================================================== *)
(** ** Further properties of SSEClient *)
(* ===================================================================== *)

Section SSEClientMore.

Variable ChartData : Type.
Variable JSON_parse : jsstring -> option ChartData.

Local Abbreviation handleEvent := (SSEClient.handleEvent ChartData JSON_parse).
Local Abbreviation dispatchLines :=
  (SSEClient.dispatchLines ChartData JSON_parse).
Local Abbreviation readLoop := (SSEClient.readLoop ChartData JSON_parse).
Local Abbreviation attemptBody := (SSEClient.attemptBody ChartData JSON_parse).
Local Abbreviation attempts := (SSEClient.attempts ChartData JSON_parse).
Local Abbreviation stream := (SSEClient.stream ChartData JSON_parse).
Local Abbreviation fresh := (Some {| aborted := false |}).

(** X5: A [chart] frame invokes [onChart] with the parsed payload, or no
    handler at all when the payload does not parse; either way the lines
    after it are dispatched from [message]. *)
Theorem chart_frame_parsed_or_dropped
    (cur data : jsstring) (rest : list jsstring) :
  dispatchLines cur (js "event: chart" :: (js "data: " ++ data) :: rest)
  = match JSON_parse data with
    | Some chart => [OnChart chart]
    | None => []
    end ++ dispatchLines (js "message") rest.
Proof.
  change (js "event: chart") with (js "event: " ++ js "chart").
  rewrite dispatch_frame. reflexivity.
Qed.

(** X6: An event name holds for one [data:] line only: the next [data:] line
    is a [message] again, and of two names in a row the later one counts. *)
Theorem event_name_scope (cur n1 n2 d1 d2 : jsstring) (rest : list jsstring) :
  dispatchLines cur
    ((js "event: " ++ n1) :: (js "data: " ++ d1) :: (js "data: " ++ d2)
       :: rest)
  = handleEvent (trim n1) d1
      ++ OnMessage d2 :: dispatchLines (js "message") rest
  /\
  dispatchLines cur
    ((js "event: " ++ n1) :: (js "event: " ++ n2) :: (js "data: " ++ d1)
       :: rest)
  = handleEvent (trim n2) d1 ++ dispatchLines (js "message") rest.
Proof.
  split.
  - rewrite dispatch_frame. f_equal.
    destruct (data_line d2) as [D1 [D2 D3]].
    cbn [SSEClient.dispatchLines]. rewrite D1, D2, D3. reflexivity.
  - destruct (event_line n1) as [E1 E2].
    cbn [SSEClient.dispatchLines]. rewrite E1.
    fold (dispatchLines (trim (slice 7 (js "event: " ++ n1)))
            ((js "event: " ++ n2) :: (js "data: " ++ d1) :: rest)).
    apply dispatch_frame.
Qed.

(** X7: A line that starts with neither marker (a blank line, a comment, a
    [data:] field written without the blank) is skipped and leaves the
    event name in force. *)
Theorem other_lines_are_skipped
    (cur name line data : jsstring) (rest : list jsstring) :
  startsWith line (js "event: ") = false ->
  startsWith line (js "data: ") = false ->
  dispatchLines cur
    ((js "event: " ++ name) :: line :: (js "data: " ++ data) :: rest)
  = handleEvent (trim name) data ++ dispatchLines (js "message") rest.
Proof.
  intros He Hd.
  rewrite <- (dispatch_frame ChartData JSON_parse cur name data rest).
  destruct (event_line name) as [E1 E2].
  cbn [SSEClient.dispatchLines]. rewrite E1, He, Hd. reflexivity.
Qed.

(** *** Failure statuses *)

(** X8: A response with a status outside 200..299 ends the call: one fetch,
    one [onError] that carries the status and the body text (empty when the
    body cannot be read), and no retry, also for a 5xx status. *)
Theorem failure_status_is_terminal (field : option AbortController)
    (env : N -> attempt_env) (status : N) (text : text_result)
    (body : option (list read_result)) :
  fetched (env 0) = Response status text body ->
  ok status = false ->
  fst (stream field env)
  = [Fetch;
     Call (OnError (js "HTTP " ++ numberToString status ++ js ": "
                    ++ match text with Text d => d | _ => [] end))].
Proof.
  intros Hf Hok. unfold SSEClient.stream.
  cbn [SSEClient.attempts SSEClient.attemptBody aborted N.to_nat
       maxRetries Pos.to_nat Pos.iter_op Nat.add].
  rewrite Hf, Hok. reflexivity.
Qed.

(** *** Bounded effort *)

Lemma countFetches_calls (cs : list (call ChartData))
    (t : list (effect ChartData)) :
  countFetches (map Call cs ++ t) = countFetches t
  /\ totalWait (map Call cs ++ t) = totalWait t.
Proof. induction cs as [|c cs IH]; [split; reflexivity | exact IH]. Qed.

Lemma readLoop_no_fetch_no_wait (reads : list read_result) :
  forall buffer,
  countFetches (fst (readLoop buffer reads)) = O
  /\ totalWait (fst (readLoop buffer reads)) = 0.
Proof.
  induction reads as [|r reads IH]; intros buffer; [split; reflexivity|].
  destruct r; [|split; reflexivity..].
  cbn [SSEClient.readLoop].
  specialize (IH (last (split 10 (buffer ++ text)) [])).
  destruct (readLoop (last (split 10 (buffer ++ text)) []) reads) as [t o].
  cbn [fst] in *. cbn [countFetches totalWait].
  destruct (countFetches_calls
    (dispatchLines (js "message") (removelast (split 10 (buffer ++ text)))) t)
    as [A B].
  rewrite A, B. exact IH.
Qed.

Lemma attemptBody_effort (field : option AbortController) (e : attempt_env) :
  (countFetches (fst (fst (attemptBody field e))) <= 1)%nat
  /\ totalWait (fst (fst (attemptBody field e))) = 0.
Proof.
  unfold SSEClient.attemptBody.
  destruct field as [c|]; [|split; [cbn; lia | reflexivity]].
  destruct (aborted c); [split; [cbn; lia | reflexivity]|].
  destruct (fetched e) as [| |status text body];
    [split; [cbn; lia | reflexivity]..|].
  destruct (negb (ok status)); [split; [cbn; lia | reflexivity]|].
  destruct body as [reads|]; [|split; [cbn; lia | reflexivity]].
  destruct (readLoop_no_fetch_no_wait reads []) as [A B].
  destruct (readLoop [] reads) as [t o]. cbn [fst] in *.
  cbn [countFetches totalWait]. rewrite A, B. split; [lia | reflexivity].
Qed.

Lemma countFetches_app (t1 t2 : list (effect ChartData)) :
  countFetches (t1 ++ t2) = (countFetches t1 + countFetches t2)%nat
  /\ totalWait (t1 ++ t2) = totalWait t1 + totalWait t2.
Proof.
  induction t1 as [|e t1 [IH1 IH2]]; [split; reflexivity|].
  destruct e; cbn [app countFetches totalWait]; rewrite ?IH1, ?IH2;
    split; lia.
Qed.

Lemma attempts_effort (remaining : nat) :
  forall attempt field env,
  attempt + N.of_nat remaining = 4 ->
  (countFetches (fst (attempts remaining attempt field env)) <= remaining)%nat
  /\ totalWait (fst (attempts remaining attempt field env))
     <= 1000 * (8 - 2 ^ attempt).
Proof.
  induction remaining as [|remaining IH]; intros attempt field env Hsum.
  - split; [apply Nat.le_refl | apply N.le_0_l].
  - cbn [SSEClient.attempts].
    destruct (attemptBody_effort field (env attempt)) as [A B].
    destruct (attemptBody field (env attempt)) as [[t o] field'].
    cbn [fst] in A, B.
    destruct o as [|[|]]; cbn [fst]; [split; lia.. |].
    unfold maxRetries. destruct (N.eqb_spec attempt 3) as [E|E].
    + cbn [fst]. destruct (countFetches_app t [Call (OnError MSG_NETWORK)])
        as [C D]. rewrite C, D. cbn [countFetches totalWait]. split; lia.
    + specialize (IH (attempt + 1)
        (if abortDuringWait (env attempt) then None else field') env
        ltac:(lia)).
      destruct (attempts remaining (attempt + 1)
        (if abortDuringWait (env attempt) then None else field') env)
        as [t' f']. cbn [fst] in *.
      destruct (countFetches_app t (Wait (2 ^ attempt * 1000) :: t'))
        as [C D]. rewrite C, D. cbn [countFetches totalWait].
      destruct IH as [IH1 IH2]. split; [lia|].
      assert (Ha : attempt = 0 \/ attempt = 1 \/ attempt = 2) by lia.
      destruct Ha as [Ha|[Ha|Ha]]; subst attempt.
      * change (2 ^ 0 * 1000) with 1000.
        change (1000 * (8 - 2 ^ 0)) with 7000.
        change (1000 * (8 - 2 ^ (0 + 1))) with 6000 in IH2. lia.
      * change (2 ^ 1 * 1000) with 2000.
        change (1000 * (8 - 2 ^ 1)) with 6000.
        change (1000 * (8 - 2 ^ (1 + 1))) with 4000 in IH2. lia.
      * change (2 ^ 2 * 1000) with 4000.
        change (1000 * (8 - 2 ^ 2)) with 4000.
        change (1000 * (8 - 2 ^ (2 + 1))) with 0 in IH2. lia.
Qed.

(** X9: Whatever the network and the server do, one call of [stream] fetches
    at most four times and spends at most seven seconds in backoff waits. *)
Theorem stream_effort_is_bounded (field : option AbortController)
    (env : N -> attempt_env) :
  (countFetches (fst (stream field env)) <= 4)%nat
  /\ totalWait (fst (stream field env)) <= 7000.
Proof.
  unfold SSEClient.stream.
  destruct (attempts_effort (S (N.to_nat maxRetries)) 0 fresh env eq_refl)
    as [A B].
  split; [exact A | exact B].
Qed.

End SSEClientMore.
Section SSEClientReads.

Variable ChartData : Type.
Variable JSON_parse : jsstring -> option ChartData.

Local Abbreviation dispatchLines :=
  (SSEClient.dispatchLines ChartData JSON_parse).
Local Abbreviation readLoop := (SSEClient.readLoop ChartData JSON_parse).
Local Abbreviation attempts := (SSEClient.attempts ChartData JSON_parse).
Local Abbreviation stream := (SSEClient.stream ChartData JSON_parse).
Local Abbreviation fresh := (Some {| aborted := false |}).

(** A body whose read fails or is aborted after some chunks has done, up
    to then, what the body that ends after these chunks does. *)
Lemma readLoop_interrupted (chunks : list jsstring) (r : read_result)
    (more : list read_result) :
  r = ReadError \/ r = ReadAborted ->
  forall buffer,
  fst (readLoop buffer (map Chunk chunks ++ r :: more))
  = fst (readLoop buffer (map Chunk chunks))
  /\ snd (readLoop buffer (map Chunk chunks ++ r :: more))
     = Thrown (match r with ReadAborted => true | _ => false end).
Proof.
  intros Hr. induction chunks as [|c chunks IH]; intros buffer.
  - destruct Hr; subst r; split; reflexivity.
  - cbn [map app SSEClient.readLoop].
    specialize (IH (last (split 10 (buffer ++ c)) [])).
    destruct (readLoop (last (split 10 (buffer ++ c)) [])
                (map Chunk chunks ++ r :: more)) as [t o].
    destruct (readLoop (last (split 10 (buffer ++ c)) []) (map Chunk chunks))
      as [t' o'].
    cbn [fst snd] in *. destruct IH as [IH1 IH2]. subst t.
    split; [reflexivity | exact IH2].
Qed.

Lemma attempts_retry (remaining : nat) (attempt : N)
    (field field' : option AbortController) (env : N -> attempt_env)
    (t : list (effect ChartData)) :
  SSEClient.attemptBody ChartData JSON_parse field (env attempt)
    = (t, Thrown false, field') ->
  abortDuringWait (env attempt) = false ->
  attempts (S remaining) attempt field env
  = if attempt =? maxRetries
    then (t ++ [Call (OnError MSG_NETWORK)], field')
    else (t ++ Wait (2 ^ attempt * 1000)
            :: fst (attempts remaining (attempt + 1) field' env),
          snd (attempts remaining (attempt + 1) field' env)).
Proof.
  intros Hb Hw. cbn [SSEClient.attempts]. rewrite Hb, Hw.
  destruct (attempt =? maxRetries); [reflexivity|].
  destruct (attempts remaining (attempt + 1) field' env). reflexivity.
Qed.

(** X10: When the read of the body fails after some chunks, the request is sent
    again after the backoff and the frames of these chunks are dispatched
    again: with a body that fails the same way each time, four times in
    all, before [onError]. *)
Theorem read_failure_replays_frames (field : option AbortController)
    (chunks : list jsstring) :
  let T := fst (readLoop [] (map Chunk chunks)) in
  fst (stream field
         (always (Response 200 (Text [])
                    (Some (map Chunk chunks ++ [ReadError])))))
  = Fetch :: T ++ Wait 1000 :: Fetch :: T ++ Wait 2000
      :: Fetch :: T ++ Wait 4000 :: Fetch :: T
      ++ [Call (OnError MSG_NETWORK)].
Proof.
  cbv zeta. unfold SSEClient.stream.
  change (S (N.to_nat maxRetries)) with 4%nat.
  set (env := always (Response 200 (Text [])
                        (Some (map Chunk chunks ++ [ReadError])))).
  assert (Hb : forall attempt,
    SSEClient.attemptBody ChartData JSON_parse fresh (env attempt)
    = (Fetch :: fst (readLoop [] (map Chunk chunks)), Thrown false, fresh)).
  { intros attempt.
    destruct (readLoop_interrupted chunks ReadError []
                (or_introl eq_refl) []) as [A B].
    unfold SSEClient.attemptBody, env, always. cbn [aborted fetched].
    change (negb (ok 200)) with false. cbv iota.
    destruct (readLoop [] (map Chunk chunks ++ [ReadError])) as [t o].
    cbn [fst snd] in A, B. subst t o. reflexivity. }
  rewrite (attempts_retry 3 0 fresh fresh env _ (Hb 0) eq_refl).
  change (0 =? maxRetries) with false. change (0 + 1) with 1. cbv iota.
  rewrite (attempts_retry 2 1 fresh fresh env _ (Hb 1) eq_refl).
  change (1 =? maxRetries) with false. change (1 + 1) with 2. cbv iota.
  rewrite (attempts_retry 1 2 fresh fresh env _ (Hb 2) eq_refl).
  change (2 =? maxRetries) with false. change (2 + 1) with 3. cbv iota.
  rewrite (attempts_retry 0 3 fresh fresh env _ (Hb 3) eq_refl).
  reflexivity.
Qed.

(** X11: An abort during the first fetch, or during a read of the body, ends
    the call: no handler is invoked beyond those of the chunks already
    read, nothing is fetched again and nothing is waited for. *)
Theorem abort_in_flight_ends_the_call (field : option AbortController)
    (env : N -> attempt_env) :
  (fetched (env 0) = FetchAborted -> stream field env = ([Fetch], None))
  /\
  (forall chunks more,
     fetched (env 0)
       = Response 200 (Text []) (Some (map Chunk chunks ++ ReadAborted :: more)) ->
     stream field env
     = (Fetch :: fst (readLoop [] (map Chunk chunks)), None)).
Proof.
  split.
  - intros H. unfold SSEClient.stream.
    cbn [SSEClient.attempts SSEClient.attemptBody aborted N.to_nat
         maxRetries Pos.to_nat Pos.iter_op Nat.add].
    rewrite H. reflexivity.
  - intros chunks more H. unfold SSEClient.stream.
    destruct (readLoop_interrupted chunks ReadAborted more
                (or_intror eq_refl) []) as [A B].
    cbn [SSEClient.attempts SSEClient.attemptBody aborted N.to_nat
         maxRetries Pos.to_nat Pos.iter_op Nat.add].
    rewrite H.
    change (negb (ok 200)) with false. cbv iota.
    destruct (readLoop [] (map Chunk chunks ++ ReadAborted :: more))
      as [t o].
    cbn [fst snd] in A, B. subst t o. reflexivity.
Qed.

(** *** The unterminated last line *)

Lemma split_without_sep (sep : N) (s : jsstring) :
  ~ In sep s -> split sep s = [s].
Proof.
  induction s as [|c s IH]; intros H; [reflexivity|].
  cbn [split]. destruct (N.eqb_spec c sep) as [E|E].
  - exfalso. apply H. left. exact E.
  - rewrite IH; [reflexivity|]. intros Hin. apply H. right. exact Hin.
Qed.

Lemma split_single (sep : N) (s : jsstring) :
  split sep s = [s] -> ~ In sep s.
Proof.
  induction s as [|c s IH]; intros H Hin; [exact Hin|].
  cbn [split] in H. destruct (N.eqb_spec c sep) as [E|E]; [discriminate|].
  destruct (split sep s) as [|h t] eqn:Hs;
    [exact (split_not_nil sep s Hs)|].
  injection H as H1 H2. subst h t.
  destruct Hin as [Hin|Hin]; [congruence | exact (IH eq_refl Hin)].
Qed.

Lemma readLoop_drops_fragment (chunks : list jsstring) (frag : jsstring) :
  ~ In 10 frag ->
  forall buffer, ~ In 10 buffer ->
  calls ChartData (fst (readLoop buffer (map Chunk (chunks ++ [frag]))))
  = calls ChartData (fst (readLoop buffer (map Chunk chunks))).
Proof.
  intros Hf. induction chunks as [|c chunks IH]; intros buffer Hb.
  - cbn [app map SSEClient.readLoop].
    rewrite (split_without_sep 10 (buffer ++ frag)).
    + reflexivity.
    + intros Hin. apply in_app_or in Hin. tauto.
  - cbn [app map SSEClient.readLoop].
    specialize (IH (last (split 10 (buffer ++ c)) [])
                   (split_single 10 _ (split_last 10 (buffer ++ c)))).
    destruct (readLoop (last (split 10 (buffer ++ c)) [])
                (map Chunk (chunks ++ [frag]))) as [t o].
    destruct (readLoop (last (split 10 (buffer ++ c)) []) (map Chunk chunks))
      as [t' o'].
    cbn [fst] in *. cbn [calls]. rewrite !calls_app, IH. reflexivity.
Qed.

(** X12: What the body delivers after its last line feed is never dispatched:
    a stream that ends without a final line feed loses its last line. *)
Theorem unterminated_last_line_is_dropped
    (chunks : list jsstring) (frag : jsstring) :
  ~ In 10 frag ->
  calls ChartData (fst (readLoop [] (map Chunk (chunks ++ [frag]))))
  = calls ChartData (fst (readLoop [] (map Chunk chunks))).
Proof.
  intros Hf. apply (readLoop_drops_fragment chunks frag Hf []).
  intros H. exact H.
Qed.

End SSEClientReads.

Lemma failure_status_is_terminal_witness :
  fetched (always (Response 503 (Text (js "busy")) None) 0)
    = Response 503 (Text (js "busy")) None
  /\ ok 503 = false
  /\ fst (SSEClient.stream unit (fun _ => None) None
            (always (Response 503 (Text (js "busy")) None)))
     = [Fetch; Call (OnError (js "HTTP 503: busy"))].
Proof.
  split; [reflexivity|]. split; [reflexivity|].
  exact (failure_status_is_terminal unit (fun _ => None) None
           (always (Response 503 (Text (js "busy")) None))
           503 (Text (js "busy")) None eq_refl eq_refl).
Defined.

Lemma other_lines_are_skipped_witness :
  startsWith (js "data:x") (js "event: ") = false
  /\ startsWith (js "data:x") (js "data: ") = false
  /\ SSEClient.dispatchLines unit (fun _ => None) (js "message")
       ((js "event: " ++ js "error") :: js "data:x"
          :: (js "data: " ++ js "y") :: [])
     = [OnError (js "y")].
Proof.
  split; [reflexivity|]. split; [reflexivity|].
  exact (other_lines_are_skipped unit (fun _ => None) (js "message")
           (js "error") (js "data:x") (js "y") [] eq_refl eq_refl).
Defined.

Lemma abort_in_flight_ends_the_call_witness :
  fetched (always FetchAborted 0) = FetchAborted
  /\ SSEClient.stream unit (fun _ => None) None (always FetchAborted)
     = ([Fetch], None).
Proof.
  split; [reflexivity|].
  exact (proj1 (abort_in_flight_ends_the_call unit (fun _ => None) None
                  (always FetchAborted)) eq_refl).
Defined.

Lemma unterminated_last_line_is_dropped_witness :
  ~ In 10 (js "data: lost")
  /\ calls unit
       (fst (SSEClient.readLoop unit (fun _ => None) []
               (map Chunk ([js "data: kept" ++ LF] ++ [js "data: lost"]))))
     = [OnMessage (js "kept")].
Proof.
  assert (H : ~ In 10 (js "data: lost")).
  { vm_compute. intuition discriminate. }
  split; [exact H|].
  exact (unterminated_last_line_is_dropped unit (fun _ => None)
           [js "data: kept" ++ LF] (js "data: lost") H).
Defined.

Lemma chunking_invariance_witness :
  forallb (fun l => negb (startsWith l (js "event: ")))
    (split 10 (concat [js "data: a" ++ LF ++ js "da"; js "ta: b" ++ LF]))
  = true
  /\ calls unit
       (fst (SSEClient.readLoop unit (fun _ => None) []
               (map Chunk [js "data: a" ++ LF ++ js "da"; js "ta: b" ++ LF])))
     = calls unit
         (fst (SSEClient.readLoop unit (fun _ => None) []
                 [Chunk (concat [js "data: a" ++ LF ++ js "da";
                                 js "ta: b" ++ LF])])).
Proof.
  split; [reflexivity|].
  exact (chunking_invariance_without_event_lines unit (fun _ => None)
           [js "data: a" ++ LF ++ js "da"; js "ta: b" ++ LF] eq_refl).
Defined.
(* ===================================================================== *)
(** ** Properties of ChatUI and ChartRenderer *)
(* ===================================================================== *)

Section TrimFacts.

Lemma trimStart_head (s t : jsstring) (c : N) :
  trimStart s = c :: t -> isWhiteSpace c = false.
Proof.
  induction s as [|d s IH]; [discriminate|].
  cbn [trimStart]. destruct (isWhiteSpace d) eqn:E; [exact IH|].
  intros H. injection H as H _. subst d. exact E.
Qed.

Lemma trimStart_fixed (s : jsstring) :
  match s with [] => True | c :: _ => isWhiteSpace c = false end ->
  trimStart s = s.
Proof.
  destruct s as [|c s]; [reflexivity|].
  intros H. cbn [trimStart]. rewrite H. reflexivity.
Qed.

Lemma trimStart_idem (s : jsstring) : trimStart (trimStart s) = trimStart s.
Proof.
  apply trimStart_fixed.
  destruct (trimStart s) as [|c t] eqn:E; [exact I|].
  exact (trimStart_head s t c E).
Qed.

Lemma trimStart_keeps_last (l : jsstring) (c : N) :
  isWhiteSpace c = false -> exists u, trimStart (l ++ [c]) = u ++ [c].
Proof.
  intros Hc. induction l as [|d l [u IH]].
  - exists []. cbn [app trimStart]. rewrite Hc. reflexivity.
  - cbn [app trimStart]. destruct (isWhiteSpace d).
    + exists u. exact IH.
    + exists (d :: l). reflexivity.
Qed.

Lemma trimStart_trimEnd (s : jsstring) :
  trimStart (trimEnd (trimStart s)) = trimEnd (trimStart s).
Proof.
  apply trimStart_fixed.
  destruct (trimStart s) as [|c t] eqn:E; [exact I|].
  pose proof (trimStart_head s t c E) as Hc.
  unfold trimEnd. cbn [rev].
  destruct (trimStart_keeps_last (rev t) c Hc) as [u Hu].
  rewrite Hu, rev_app_distr. cbn [rev app]. exact Hc.
Qed.

Lemma trim_idem (s : jsstring) : trim (trim s) = trim s.
Proof.
  unfold trim. rewrite trimStart_trimEnd.
  unfold trimEnd at 1 2. rewrite rev_involutive, trimStart_idem.
  reflexivity.
Qed.

End TrimFacts.

(** X14: The input area passes on only text that is not empty and has no white
    space left at either end, so a turn always carries a truthy text;
    input made of white space only is not sent. *)
Theorem input_text_is_trimmed (value : jsstring) :
  match ChatUI.handleSend value with
  | Some text => text <> [] /\ trim text = text /\ text = trim value
  | None => forallb isWhiteSpace value = true
  end.
Proof.
  unfold ChatUI.handleSend. cbv zeta.
  destruct (trim value) as [|c t] eqn:E; cbn [truthy negb].
  - unfold trim, trimEnd in E.
    assert (H : trimStart value = []).
    { destruct (trimStart value) as [|d u] eqn:Hs; [reflexivity|].
      pose proof (trimStart_head value u d Hs) as Hd.
      destruct (trimStart_keeps_last (rev u) d Hd) as [w Hw].
      cbn [rev] in E. rewrite Hw, rev_app_distr in E. discriminate E. }
    clear E. induction value as [|d value IH]; [reflexivity|].
    cbn [trimStart] in H. cbn [forallb].
    destruct (isWhiteSpace d); [exact (IH H) | discriminate].
  - rewrite <- E. repeat split.
    + rewrite E. discriminate.
    + apply trim_idem.
Qed.

Section UiFacts.

Variable ChartData : Type.
Variable parseHTML : jsstring -> list (SpoChatbot.element ChartData).

Local Abbreviation ChatUI := (SpoChatbot.ChatUI ChartData).
Local Abbreviation element := (SpoChatbot.element ChartData).
Local Abbreviation appendChunk := (SpoChatbot.appendChunk ChartData parseHTML).
Local Abbreviation appendToLastAssistant :=
  (SpoChatbot.appendToLastAssistant ChartData parseHTML).
Local Abbreviation addChartToLastAssistant :=
  (SpoChatbot.addChartToLastAssistant ChartData).

(** The traversals of an element go through its children as the
    traversals of a list of siblings do. *)
Lemma updateLastBelow_Node (f : element -> element) classes dataRaw children :
  updateLastBelow _ f (Node _ classes dataRaw children)
  = match updateLast _ f children with
    | Some children' => Some (Node _ classes dataRaw children')
    | None =>
      if isOpen _ (Node _ classes dataRaw children)
      then Some (f (Node _ classes dataRaw children)) else None
    end.
Proof.
  cbn [updateLastBelow].
  match goal with
  | |- match ?a with _ => _ end = match ?b with _ => _ end =>
    replace a with b; [reflexivity|]
  end.
  induction children as [|n rest IH]; [reflexivity|].
  cbn [updateLast]. rewrite IH. reflexivity.
Qed.

Lemma lastOpenBelow_Node classes dataRaw (children : list element) :
  lastOpenBelow _ (Node _ classes dataRaw children)
  = match lastOpen _ children with
    | Some x => Some x
    | None =>
      if isOpen _ (Node _ classes dataRaw children)
      then Some (Node _ classes dataRaw children) else None
    end.
Proof.
  cbn [lastOpenBelow].
  match goal with
  | |- match ?a with _ => _ end = match ?b with _ => _ end =>
    replace a with b; [reflexivity|]
  end.
  induction children as [|n rest IH]; [reflexivity|].
  cbn [lastOpen]. rewrite IH. reflexivity.
Qed.

(** [updateLast] finds an element to update exactly when [lastOpen] finds
    one, and the element found matches the selector. *)
Lemma updateLast_agrees_Forall (f : element -> element) (ns : list element) :
  Forall (fun e =>
            match lastOpenBelow _ e with
            | Some x =>
              isOpen _ x = true /\ exists e', updateLastBelow _ f e = Some e'
            | None => updateLastBelow _ f e = None
            end) ns ->
  match lastOpen _ ns with
  | Some x => isOpen _ x = true /\ exists ns', updateLast _ f ns = Some ns'
  | None => updateLast _ f ns = None
  end.
Proof.
  induction 1 as [|n rest Hn _ IH]; [reflexivity|].
  cbn [lastOpen updateLast].
  destruct (lastOpen _ rest) as [x|].
  - destruct IH as [Hx [rest' E]]. rewrite E. split; [exact Hx|eauto].
  - rewrite IH.
    destruct (lastOpenBelow _ n) as [x|].
    + destruct Hn as [Hx [n' E]]. rewrite E. split; [exact Hx|eauto].
    + rewrite Hn. reflexivity.
Qed.

Lemma updateLastBelow_agrees (f : element -> element) (e : element) :
  match lastOpenBelow _ e with
  | Some x => isOpen _ x = true /\ exists e', updateLastBelow _ f e = Some e'
  | None => updateLastBelow _ f e = None
  end.
Proof.
  induction e as [| | | |classes dataRaw children IH]
    using element_induction; try reflexivity.
  apply updateLast_agrees_Forall in IH.
  rewrite lastOpenBelow_Node, updateLastBelow_Node.
  destruct (lastOpen _ children) as [x|].
  - destruct IH as [Hx [ch' E]]. rewrite E. split; [exact Hx|eauto].
  - rewrite IH.
    destruct (isOpen _ (Node _ classes dataRaw children)) eqn:E.
    + split; [exact E|eauto].
    + reflexivity.
Qed.

Lemma updateLast_agrees (f : element -> element) (ns : list element) :
  match lastOpen _ ns with
  | Some x => isOpen _ x = true /\ exists ns', updateLast _ f ns = Some ns'
  | None => updateLast _ f ns = None
  end.
Proof.
  apply updateLast_agrees_Forall, Forall_forall.
  intros e _. apply updateLastBelow_agrees.
Qed.

Lemma updateLast_none (f : element -> element) (ns : list element) :
  lastOpen _ ns = None -> updateLast _ f ns = None.
Proof.
  intros H. pose proof (updateLast_agrees f ns) as S.
  rewrite H in S. exact S.
Qed.

Lemma updateLast_some (f : element -> element) (ns : list element) x :
  lastOpen _ ns = Some x ->
  isOpen _ x = true /\ exists ns', updateLast _ f ns = Some ns'.
Proof.
  intros H. pose proof (updateLast_agrees f ns) as S.
  rewrite H in S. exact S.
Qed.

Lemma lastOpen_of_update (f : element -> element) (ns ns' : list element) :
  updateLast _ f ns = Some ns' -> exists x, lastOpen _ ns = Some x.
Proof.
  intros H. destruct (lastOpen _ ns) as [x|] eqn:E; [eauto|].
  rewrite (updateLast_none f ns E) in H. discriminate.
Qed.

Lemma lastOpen_of_no_update (f : element -> element) (ns : list element) :
  updateLast _ f ns = None -> lastOpen _ ns = None.
Proof.
  intros H. destruct (lastOpen _ ns) as [x|] eqn:E; [|reflexivity].
  destruct (updateLast_some f ns x E) as [_ [ns' E']].
  rewrite E' in H. discriminate.
Qed.

(** Two updates that agree on every element update alike. *)
Lemma updateLast_ext_Forall (f g : element -> element) (ns : list element) :
  Forall (fun e => updateLastBelow _ f e = updateLastBelow _ g e) ns ->
  updateLast _ f ns = updateLast _ g ns.
Proof.
  induction 1 as [|n rest Hn _ IH]; [reflexivity|].
  cbn [updateLast]. rewrite IH, Hn. reflexivity.
Qed.

Lemma updateLastBelow_ext (f g : element -> element) :
  (forall e, f e = g e) ->
  forall e, updateLastBelow _ f e = updateLastBelow _ g e.
Proof.
  intros Hfg e.
  induction e as [| | | |classes dataRaw children IH]
    using element_induction; try reflexivity.
  rewrite !updateLastBelow_Node, (updateLast_ext_Forall f g children IH), Hfg.
  reflexivity.
Qed.

Lemma updateLast_ext (f g : element -> element) (ns : list element) :
  (forall e, f e = g e) -> updateLast _ f ns = updateLast _ g ns.
Proof.
  intros Hfg. apply updateLast_ext_Forall, Forall_forall.
  intros e _. apply updateLastBelow_ext, Hfg.
Qed.

(** An update after an update is the update by the composition, when the
    element the first update leaves is itself the last match afterwards. *)
Lemma updateLast_twice_Forall (f g : element -> element)
    (ns : list element) :
  Forall (fun n => forall n',
            (forall e, lastOpenBelow _ n = Some e ->
                       updateLastBelow _ g (f e) = Some (g (f e))) ->
            updateLastBelow _ f n = Some n' ->
            updateLastBelow _ g n'
            = updateLastBelow _ (fun e => g (f e)) n) ns ->
  forall ns',
  (forall e, lastOpen _ ns = Some e ->
             updateLastBelow _ g (f e) = Some (g (f e))) ->
  updateLast _ f ns = Some ns' ->
  updateLast _ g ns' = updateLast _ (fun e => g (f e)) ns.
Proof.
  induction 1 as [|n rest Hn _ IH]; intros ns' HQ H; [discriminate H|].
  cbn [updateLast lastOpen] in H, HQ. cbn [updateLast].
  destruct (updateLast _ f rest) as [rest'|] eqn:E.
  - injection H as <-.
    destruct (lastOpen_of_update f rest rest' E) as [x Ex].
    assert (HQ' : forall e, lastOpen _ rest = Some e ->
                            updateLastBelow _ g (f e) = Some (g (f e))).
    { intros e He. apply HQ. rewrite He. reflexivity. }
    cbn [updateLast]. rewrite (IH rest' HQ' eq_refl).
    destruct (updateLast_some (fun e => g (f e)) rest x Ex) as [_ [r E']].
    rewrite E'. reflexivity.
  - pose proof (lastOpen_of_no_update f rest E) as Ex. rewrite Ex in HQ.
    rewrite (updateLast_none (fun e => g (f e)) rest Ex).
    destruct (updateLastBelow _ f n) as [n'|] eqn:En; [|discriminate H].
    injection H as <-. cbn [updateLast].
    rewrite (updateLast_none g rest Ex), (Hn n' HQ eq_refl). reflexivity.
Qed.

Lemma updateLastBelow_twice (f g : element -> element) (n : element) :
  forall n',
  (forall e, lastOpenBelow _ n = Some e ->
             updateLastBelow _ g (f e) = Some (g (f e))) ->
  updateLastBelow _ f n = Some n' ->
  updateLastBelow _ g n' = updateLastBelow _ (fun e => g (f e)) n.
Proof.
  induction n as [| | | |classes dataRaw children IH]
    using element_induction; try discriminate.
  intros n' HQ H.
  rewrite lastOpenBelow_Node in HQ. rewrite updateLastBelow_Node in H.
  rewrite (updateLastBelow_Node (fun e => g (f e))).
  destruct (updateLast _ f children) as [ch'|] eqn:E.
  - injection H as <-.
    destruct (lastOpen_of_update f children ch' E) as [x Ex].
    assert (HQ' : forall e, lastOpen _ children = Some e ->
                            updateLastBelow _ g (f e) = Some (g (f e))).
    { intros e He. apply HQ. rewrite He. reflexivity. }
    rewrite updateLastBelow_Node,
      (updateLast_twice_Forall f g children IH ch' HQ' E).
    destruct (updateLast_some (fun e => g (f e)) children x Ex)
      as [_ [r E']].
    rewrite E'. reflexivity.
  - pose proof (lastOpen_of_no_update f children E) as Ex.
    rewrite Ex in HQ.
    rewrite (updateLast_none (fun e => g (f e)) children Ex).
    destruct (isOpen _ (Node _ classes dataRaw children));
      [|discriminate H].
    injection H as <-. apply HQ. reflexivity.
Qed.

Lemma updateLast_twice (f g : element -> element) (ns ns' : list element) :
  (forall e, lastOpen _ ns = Some e ->
             updateLastBelow _ g (f e) = Some (g (f e))) ->
  updateLast _ f ns = Some ns' ->
  updateLast _ g ns' = updateLast _ (fun e => g (f e)) ns.
Proof.
  apply updateLast_twice_Forall, Forall_forall.
  intros n _ n'. apply updateLastBelow_twice.
Qed.



Lemma lastOpen_snoc_none (l : list element) (x : element) :
  lastOpenBelow _ x = None -> lastOpen _ (l ++ [x]) = lastOpen _ l.
Proof.
  intros H. induction l as [|a l IH].
  - cbn [app lastOpen]. exact H.
  - cbn [app lastOpen]. rewrite IH. reflexivity.
Qed.

(** A matching element keeps its place as the last match after a chunk
    when the rendering of its text plants no matching element. *)
Lemma appendChunk_stays_last (g : element -> element) (chunk : jsstring)
    (e : element) classes current children :
  e = Node _ classes (Some current) children ->
  isOpen _ e = true ->
  lastOpen _ (parseHTML (render (current ++ chunk))) = None ->
  updateLastBelow _ g (appendChunk chunk e)
  = Some (g (appendChunk chunk e)).
Proof.
  intros -> Ho Hn. cbn [SpoChatbot.appendChunk].
  rewrite updateLastBelow_Node, (updateLast_none g _ Hn).
  cbn [isOpen] in Ho |- *. rewrite Ho. reflexivity.
Qed.

Lemma appendChunk_app (c1 c2 : jsstring) (e : element) :
  appendChunk c2 (appendChunk c1 e) = appendChunk (c1 ++ c2) e.
Proof.
  destruct e as [| | | |classes [current|] children]; try reflexivity.
  cbn [SpoChatbot.appendChunk]. rewrite <- app_assoc. reflexivity.
Qed.

Lemma isOpen_inv (e : element) :
  isOpen _ e = true ->
  exists classes current children,
    e = Node _ classes (Some current) children.
Proof.
  destruct e as [| | | |classes [current|] children]; try discriminate.
  eauto.
Qed.

(** X15: Appending to the last assistant element chunk by chunk gives what
    appending the concatenation gives, the same [data-raw] and the same
    rendering of it, provided the rendering of the text after the first
    chunk plants no element that matches
    [.spo-message--assistant[data-raw]] itself. *)
Theorem append_chunks_compose (c1 c2 : jsstring) (u : ChatUI) :
  (forall classes current children,
     lastOpen _ (messagesEl _ u)
     = Some (Node _ classes (Some current) children) ->
     lastOpen _ (parseHTML (render (current ++ c1))) = None) ->
  appendToLastAssistant c2 (appendToLastAssistant c1 u)
  = appendToLastAssistant (c1 ++ c2) u.
Proof.
  intros H. unfold SpoChatbot.appendToLastAssistant.
  rewrite <- (updateLast_ext _ _ (messagesEl _ u) (appendChunk_app c1 c2)).
  destruct (updateLast _ (appendChunk c1) (messagesEl _ u)) as [ns'|] eqn:E.
  - assert (T : updateLast _ (appendChunk c2) ns'
                = updateLast _ (fun e => appendChunk c2 (appendChunk c1 e))
                    (messagesEl _ u)).
    { apply (updateLast_twice (appendChunk c1) (appendChunk c2)
               (messagesEl _ u) ns'); [|exact E].
      intros e He.
      destruct (updateLast_some (appendChunk c1) _ e He) as [Ho _].
      destruct (isOpen_inv e Ho) as [classes [current [children Ee]]].
      apply (appendChunk_stays_last _ c1 e classes current children Ee Ho).
      apply (H classes current children). rewrite He, Ee. reflexivity. }
    cbn [messagesEl setMessagesEl]. rewrite T.
    destruct (lastOpen_of_update _ _ _ E) as [x Ex].
    destruct (updateLast_some
                (fun e => appendChunk c2 (appendChunk c1 e)) _ x Ex)
      as [_ [els E']].
    rewrite E'. reflexivity.
  - pose proof (lastOpen_of_no_update _ _ E) as Ex.
    rewrite !(updateLast_none _ _ Ex). reflexivity.
Qed.

(** X16: When no element matches [.spo-message--assistant[data-raw]], for
    instance after [clearMessages], a chunk or a chart that arrives
    changes nothing. *)
Theorem no_open_element_no_effect (chunk : jsstring) (chart : ChartData)
    (u : ChatUI) :
  lastOpen _ (messagesEl _ u) = None ->
  appendToLastAssistant chunk u = u
  /\ addChartToLastAssistant chart u = u
  /\ appendToLastAssistant chunk (clearMessages _ u) = clearMessages _ u
  /\ addChartToLastAssistant chart (clearMessages _ u) = clearMessages _ u.
Proof.
  intros H.
  unfold SpoChatbot.appendToLastAssistant,
    SpoChatbot.addChartToLastAssistant.
  rewrite !(updateLast_none _ _ H). repeat split.
Qed.

End UiFacts.

Lemma no_open_element_no_effect_witness :
  lastOpen unit
    (messagesEl unit (clearMessages unit
       (ui unit (rendered unit sampleConfig))))
  = None
  /\ SpoChatbot.appendToLastAssistant unit (sampleParser unit) (js "late")
       (clearMessages unit (ui unit (rendered unit sampleConfig)))
     = clearMessages unit (ui unit (rendered unit sampleConfig)).
Proof.
  split; [reflexivity|].
  exact (proj1 (no_open_element_no_effect unit (sampleParser unit)
                  (js "late") tt
                  (clearMessages unit (ui unit (rendered unit sampleConfig)))
                  eq_refl)).
Defined.

Lemma append_chunks_compose_witness :
  (forall classes current children,
     lastOpen unit
       (messagesEl unit
          (startStreaming unit (ui unit (rendered unit sampleConfig))))
     = Some (Node unit classes (Some current) children) ->
     lastOpen unit (sampleParser unit (render (current ++ js "Hel"))) = None)
  /\ SpoChatbot.appendToLastAssistant unit (sampleParser unit) (js "lo")
       (SpoChatbot.appendToLastAssistant unit (sampleParser unit) (js "Hel")
          (startStreaming unit (ui unit (rendered unit sampleConfig))))
     = SpoChatbot.appendToLastAssistant unit (sampleParser unit)
         (js "Hel" ++ js "lo")
         (startStreaming unit (ui unit (rendered unit sampleConfig))).
Proof.
  assert (H : forall classes current children,
     lastOpen unit
       (messagesEl unit
          (startStreaming unit (ui unit (rendered unit sampleConfig))))
     = Some (Node unit classes (Some current) children) ->
     lastOpen unit (sampleParser unit (render (current ++ js "Hel"))) = None).
  { intros classes current children E. vm_compute in E.
    injection E as _ <- _. vm_compute. reflexivity. }
  split; [exact H|].
  exact (append_chunks_compose unit (sampleParser unit) (js "Hel") (js "lo")
           (startStreaming unit (ui unit (rendered unit sampleConfig))) H).
Defined.

Section ChartRendererFacts.

Import ChartRenderer.

Lemma themeColorsFrom_length (style : jsstring -> jsstring) (count : nat) :
  forall i, (List.length (themeColorsFrom style i count) <= count)%nat.
Proof.
  induction count as [|count IH]; intros i; [apply Nat.le_refl|].
  cbn [themeColorsFrom].
  destruct (truthy (trim (style (js "--spo-chart-color-"
                                   ++ numberToString i)))).
  - cbn [List.length]. specialize (IH (i + 1)). lia.
  - specialize (IH (i + 1)). lia.
Qed.

Lemma colorAt_defined (colors : list jsstring) (i : nat) :
  colors <> [] -> exists x, colorAt colors i = Some x /\ In x colors.
Proof.
  intros Hne. unfold colorAt.
  assert (Hlt : (i mod List.length colors < List.length colors)%nat).
  { apply Nat.mod_upper_bound. destruct colors; [contradiction|].
    discriminate. }
  destruct (nth_error colors (i mod List.length colors)) as [x|] eqn:E.
  - exists x. split; [reflexivity|]. exact (nth_error_In _ _ E).
  - apply nth_error_None in E. lia.
Qed.

(** X17: The palette is never empty and has at most five colours, so every
    colour handed to the chart is one of the palette: none is undefined,
    and a pie gets exactly one per label. *)
Theorem chart_colours_are_defined (style : jsstring -> jsstring)
    (type : jsstring) (datasetIndex labelCount : nat) :
  let colors := getThemeColors style in
  colors <> []
  /\ (List.length colors <= 5)%nat
  /\ match getBackgroundColors type colors datasetIndex labelCount with
     | inl c => exists x, c = Some x /\ In x colors
     | inr cs =>
       List.length cs = labelCount
       /\ forall c, In c cs -> exists x, c = Some x /\ In x colors
     end.
Proof.
  cbv zeta.
  assert (Hne : getThemeColors style <> []).
  { unfold getThemeColors. cbv zeta.
    destruct (themeColorsFrom style 1 5) as [|c l] eqn:E; cbn; discriminate. }
  split; [exact Hne|]. split.
  - unfold getThemeColors. cbv zeta.
    pose proof (themeColorsFrom_length style 5 1) as H.
    destruct (0 <? List.length (themeColorsFrom style 1 5))%nat;
      [exact H | apply Nat.le_refl].
  - unfold getBackgroundColors.
    destruct (JS.eqb type (js "pie")).
    + split; [rewrite length_map, length_seq; reflexivity|].
      intros c Hin. apply in_map_iff in Hin. destruct Hin as [i [Hi _]].
      subst c. exact (colorAt_defined _ i Hne).
    + exact (colorAt_defined _ datasetIndex Hne).
Qed.

End ChartRendererFacts.
(* ===================================================================== *)
(** ** Further properties of SpoChatbot *)
(* ===================================================================== *)

Section JsEqFacts.

Lemma eqb_eq (a b : jsstring) : JS.eqb a b = true <-> a = b.
Proof.
  revert b. induction a as [|x a IH]; intros [|y b]; cbn [JS.eqb];
    split; intros H; try reflexivity; try discriminate.
  - apply andb_prop in H. destruct H as [H1 H2].
    apply N.eqb_eq in H1. apply IH in H2. congruence.
  - injection H as H1 H2. subst. rewrite N.eqb_refl.
    apply IH. reflexivity.
Qed.

Lemma includes_app_r (q s p : jsstring) :
  includes s p = true -> includes (q ++ s) p = true.
Proof.
  intros H. induction q as [|c q IH]; [exact H|].
  cbn [app includes]. rewrite IH. apply orb_true_r.
Qed.

End JsEqFacts.

Section StreamUrlFacts.

Lemma slash_not_last (bef : jsstring) (d : N) (rest : jsstring) :
  rest <> [] ->
  match_here MarkdownRenderer.g re_trailingSlash bef (d :: rest) = None.
Proof.
  intros Hr. unfold match_here, re_trailingSlash.
  cbn [m step after before caps lit_match ignoreCase MarkdownRenderer.g].
  destruct (47 =? d); [|reflexivity].
  unfold at_eol. cbn [after multiline MarkdownRenderer.g].
  destruct rest; [contradiction | reflexivity].
Qed.

Lemma strip_trailing_slash (base : jsstring) : forall bef,
  replaceFirst_from MarkdownRenderer.g re_trailingSlash (fun _ _ => [])
    bef (base ++ [47]) = base.
Proof.
  induction base as [|d base IH]; intros bef; [reflexivity|].
  cbn [app replaceFirst_from].
  rewrite slash_not_last by (destruct base; discriminate).
  rewrite IH. reflexivity.
Qed.

Lemma no_trailing_slash (s : jsstring) : forall bef,
  last s 0 <> 47 ->
  replaceFirst_from MarkdownRenderer.g re_trailingSlash (fun _ _ => [])
    bef s = s.
Proof.
  induction s as [|d s IH]; intros bef H; [reflexivity|].
  cbn [replaceFirst_from].
  destruct s as [|e s].
  - cbn [last] in H.
    unfold match_here, re_trailingSlash.
    cbn [m step after before caps lit_match ignoreCase MarkdownRenderer.g].
    destruct (N.eqb_spec 47 d); [congruence | reflexivity].
  - rewrite slash_not_last by discriminate.
    rewrite IH; [reflexivity | exact H].
Qed.

(** X18: The stream address is the same whether the configured address ends
    with one slash or with none. *)
Theorem streamUrl_ignores_one_trailing_slash
    (cfg : SpoChatbotConfig) (base : jsstring) :
  last base 0 <> 47 ->
  streamUrl (Attributes.withApiUrl (base ++ js "/") cfg)
    = base ++ js "/api/chat/stream"
  /\ streamUrl (Attributes.withApiUrl base cfg)
    = base ++ js "/api/chat/stream".
Proof.
  intros H. unfold streamUrl, replaceFirst. cbn [apiUrl Attributes.withApiUrl].
  change (js "/") with [47].
  rewrite strip_trailing_slash, (no_trailing_slash base [] H).
  split; reflexivity.
Qed.

End StreamUrlFacts.

Lemma streamUrl_ignores_one_trailing_slash_witness :
  last (js "https://chat.example") 0 <> 47
  /\ streamUrl (Attributes.withApiUrl (js "https://chat.example" ++ js "/")
                  sampleConfig)
     = js "https://chat.example" ++ js "/api/chat/stream".
Proof.
  assert (H : last (js "https://chat.example") 0 <> 47)
    by (vm_compute; discriminate).
  split; [exact H|].
  exact (proj1 (streamUrl_ignores_one_trailing_slash sampleConfig
                  (js "https://chat.example") H)).
Defined.

Section ContextFacts.

Import Attributes.

Lemma collectFrom_In (get : jsstring -> option jsstring)
    (attrs : list jsstring) (k v : jsstring) :
  In (k, v) (collectFrom get attrs) <->
  exists attr, In attr attrs /\ get attr = Some v /\ v <> []
               /\ k = replaceChar 45 (js "_") attr.
Proof.
  induction attrs as [|a attrs IH]; cbn [collectFrom].
  - split; [intros [] | intros [attr [[] _]]].
  - destruct (get a) as [value|] eqn:E.
    + destruct value as [|c value]; cbn [truthy].
      * rewrite IH. split; intros [attr [H1 [H2 [H3 H4]]]].
        -- exists attr. repeat split; try assumption. right. exact H1.
        -- destruct H1 as [H1|H1]; [subst attr; congruence|].
           exists attr. repeat split; assumption.
      * cbn [In]. rewrite IH. split.
        -- intros [H|[attr [H1 [H2 [H3 H4]]]]].
           ++ injection H as H1 H2. subst k v. exists a.
              repeat split; try assumption; [left; reflexivity|discriminate].
           ++ exists attr. repeat split; try assumption. right. exact H1.
        -- intros [attr [H1 [H2 [H3 H4]]]]. destruct H1 as [H1|H1].
           ++ subst attr. left. rewrite E in H2. injection H2 as H2.
              subst v k. reflexivity.
           ++ right. exists attr. repeat split; assumption.
    + rewrite IH. split; intros [attr [H1 [H2 [H3 H4]]]].
      * exists attr. repeat split; try assumption. right. exact H1.
      * destruct H1 as [H1|H1]; [subst attr; congruence|].
        exists attr. repeat split; assumption.
Qed.

(** X19: The collected context holds exactly the non-empty values of the seven
    context attributes, each under the attribute's name with its hyphens
    turned into underscores. *)
Theorem collectContextParams_entries (get : jsstring -> option jsstring)
    (k v : jsstring) :
  In (k, v) (collectContextParams get) <->
  exists attr, In attr contextAttrs /\ get attr = Some v /\ v <> []
               /\ k = replaceChar 45 (js "_") attr.
Proof. apply collectFrom_In. Qed.

Lemma collectFrom_nil (get : jsstring -> option jsstring)
    (attrs : list jsstring) :
  collectFrom get attrs = [] <->
  forall attr, In attr attrs -> isSet (get attr) = false.
Proof.
  induction attrs as [|a attrs IH]; cbn [collectFrom].
  - split; [intros _ attr [] | reflexivity].
  - destruct (get a) as [value|] eqn:E.
    + destruct (truthy value) eqn:T.
      * split; [discriminate|]. intros H.
        specialize (H a (or_introl eq_refl)). unfold isSet in H.
        rewrite E, T in H. discriminate H.
      * rewrite IH. split; intros H attr Hin.
        -- destruct Hin as [Hin|Hin]; [|exact (H attr Hin)].
           subst attr. unfold isSet. rewrite E. exact T.
        -- apply H. right. exact Hin.
    + rewrite IH. split; intros H attr Hin.
      * destruct Hin as [Hin|Hin]; [|exact (H attr Hin)].
        subst attr. unfold isSet. rewrite E. reflexivity.
      * apply H. right. exact Hin.
Qed.

(** X20: A request built from the collected context has no [context] key
    exactly when none of the seven context attributes is set. *)
Theorem context_omitted_iff_no_attribute (cfg : SpoChatbotConfig)
    (get : jsstring -> option jsstring) (text : jsstring) :
  context (buildChatRequest
             (withContextParams (collectContextParams get) cfg) text) = None
  <-> forall attr, In attr contextAttrs -> isSet (get attr) = false.
Proof.
  unfold buildChatRequest. cbn [context contextParams withContextParams].
  rewrite <- (collectFrom_nil get contextAttrs).
  unfold collectContextParams.
  destruct (collectFrom get contextAttrs) as [|p l]; cbn.
  - split; reflexivity.
  - split; discriminate.
Qed.

End ContextFacts.
Section SpoChatbotMore.

Import Attributes.

Variable ChartData : Type.
Variable JSON_parse : jsstring -> option ChartData.
Variable Date_now : N -> N.
Variable parseHTML : jsstring -> list (element ChartData).

Local Abbreviation state := (SpoChatbot.state ChartData).
Local Abbreviation submit := (SpoChatbot.submit ChartData Date_now parseHTML).
Local Abbreviation handler :=
  (SpoChatbot.handler ChartData Date_now parseHTML).
Local Abbreviation handleSend :=
  (SpoChatbot.handleSend ChartData JSON_parse Date_now parseHTML).
Local Abbreviation handleRetry :=
  (SpoChatbot.handleRetry ChartData JSON_parse Date_now parseHTML).
Local Abbreviation initSession := (SpoChatbot.initSession ChartData).
Local Abbreviation handleReset := (SpoChatbot.handleReset ChartData).
Local Abbreviation connectedCallback :=
  (SpoChatbot.connectedCallback ChartData).
Local Abbreviation attributeChangedCallback :=
  (Attributes.attributeChangedCallback ChartData).

(** *** Session creation *)

(** X21: Every 410 answer to session creation is followed by one more request,
    without a bound: after [n] such answers and a success there are
    [n + 1] requests, the session of the last one is kept, and nothing is
    shown. *)
Theorem session_expired_loop (n : nat) (session_id : jsstring) :
  forall s : state,
  let s' := initSession (repeat (ThrowsApiError 410) n ++ [Resolves session_id])
              s in
  sessionId _ s' = Some session_id
  /\ requests _ s' = requests _ s ++ repeat (sessionRequest s) (S n)
  /\ ui _ s' = ui _ s
  /\ error _ s' = error _ s.
Proof.
  induction n as [|n IH]; intros s; cbv zeta.
  - repeat split.
  - cbn [repeat app].
    change (initSession
              (ThrowsApiError 410
                 :: repeat (ThrowsApiError 410) n ++ [Resolves session_id]) s)
      with (initSession
              (repeat (ThrowsApiError 410) n ++ [Resolves session_id])
              (send _ (sessionRequest s) s)).
    specialize (IH (send _ (sessionRequest s) s)). cbv zeta in IH.
    destruct IH as [A [B [C D]]].
    repeat split; try assumption.
    rewrite B. cbn [requests send]. rewrite <- app_assoc. reflexivity.
Qed.

(** What [initSession] leaves alone, and the lock it never lifts. *)
Lemma initSession_keeps (answers : list api_outcome) : forall s : state,
  messages _ (initSession answers s) = messages _ s
  /\ messageCounter _ (initSession answers s) = messageCounter _ s
  /\ lastFailedMessage _ (initSession answers s) = lastFailedMessage _ s
  /\ sse _ (initSession answers s) = sse _ s
  /\ config _ (initSession answers s) = config _ s
  /\ (inputDisabled _ (ui _ s) = true ->
      inputDisabled _ (ui _ (initSession answers s)) = true)
  /\ exists errs,
       messagesEl _ (ui _ (initSession answers s))
       = messagesEl _ (ui _ s) ++ errs
       /\ forall e, In e errs -> exists m r, e = ErrorEl _ m r.
Proof.
  induction answers as [|a answers IH]; intros s.
  - repeat split; try (intros H; exact H).
    exists []. split; [symmetry; apply app_nil_r | intros e []].
  - destruct a as [sid|status|].
    + repeat split; try (intros H; exact H).
      exists []. split; [symmetry; apply app_nil_r | intros e []].
    + cbn [SpoChatbot.initSession]. unfold handleApiError.
      destruct (status =? 401); [|destruct (status =? 403);
        [|destruct (status =? 410)]].
      * repeat split. eexists. split; [reflexivity|].
        intros e [E|[]]. subst e. eauto.
      * repeat split. eexists. split; [reflexivity|].
        intros e [E|[]]. subst e. eauto.
      * apply (IH (send _ _ s)).
      * repeat split; try (intros H; exact H).
        eexists. split; [reflexivity|].
        intros e [E|[]]. subst e. eauto.
    + cbn [SpoChatbot.initSession]. unfold handleApiError.
      repeat split; try (intros H; exact H).
      eexists. split; [reflexivity|].
      intros e [E|[]]. subst e. eauto.
Qed.

(** X22: The retry button shown when session creation fails does nothing:
    no text has failed, so [handleRetry] leaves the element as it is and
    requests no session. *)
Theorem retry_after_session_failure_is_idle (cfg : SpoChatbotConfig)
    (answers : list api_outcome) (env : N -> attempt_env) (s : state) :
  connectedCallback cfg answers = Some s ->
  handleRetry env s = s
  /\ (forall status, answers = [ThrowsApiError status] ->
        status <> 401 -> status <> 403 -> status <> 410 ->
        messagesEl _ (ui _ s)
        = [EmptyState _; ErrorEl _ MSG_SERVER true]).
Proof.
  unfold SpoChatbot.connectedCallback.
  destruct (negb (truthy (apiUrl cfg))); [discriminate|].
  intros H. injection H as H. subst s. split.
  - unfold SpoChatbot.handleRetry.
    destruct (initSession_keeps answers (rendered _ cfg))
      as [_ [_ [L _]]].
    rewrite L. reflexivity.
  - intros status Ha H1 H2 H3. subst answers.
    cbn [SpoChatbot.initSession]. unfold handleApiError.
    apply N.eqb_neq in H1, H2, H3. rewrite H1, H2, H3. reflexivity.
Qed.

(** X23: [handleReset] empties the message list and the message area whatever
    the server answers; it keeps the retained failed text, the message
    counter and the stream client as they are, and an input that was
    disabled stays disabled. *)
Theorem reset_clears_local_state (answers : list api_outcome) (s : state) :
  let s' := handleReset answers s in
  messages _ s' = []
  /\ (exists errs,
        messagesEl _ (ui _ s') = EmptyState _ :: errs
        /\ forall e, In e errs -> exists m r, e = ErrorEl _ m r)
  /\ lastFailedMessage _ s' = lastFailedMessage _ s
  /\ messageCounter _ s' = messageCounter _ s
  /\ sse _ s' = sse _ s
  /\ (inputDisabled _ (ui _ s) = true -> inputDisabled _ (ui _ s') = true).
Proof.
  cbv zeta. unfold SpoChatbot.handleReset. cbv zeta.
  match goal with
  | |- context [initSession answers ?s0] =>
    destruct (initSession_keeps answers s0)
      as [A [B [C [D [_ [F [errs [G1 G2]]]]]]]]
  end.
  rewrite A, B, C, D. repeat split; try reflexivity.
  - exists errs. split; [exact G1 | exact G2].
  - exact F.
Qed.

(** *** Attribute changes *)

Lemma sameValue_false (old : option jsstring) (v : jsstring) :
  old <> Some v -> sameValue old (Some v) = false.
Proof.
  intros H. destruct old as [x|]; [|reflexivity]. cbn [sameValue].
  destruct (JS.eqb x v) eqn:E; [|reflexivity].
  apply eqb_eq in E. congruence.
Qed.

(** X24: A new, non-empty token lifts the lock of an expired authentication:
    the error is cleared and the input is enabled again.  The lock of a
    forbidden access stays. *)
Theorem token_change_lifts_auth_lock
    (get : jsstring -> option jsstring) (old : option jsstring)
    (tok : jsstring) (s : state) :
  tok <> [] -> old <> Some tok ->
  let s' := attributeChangedCallback get (js "token") old (Some tok) s in
  token (config _ s') = tok
  /\ (error _ s = Some MSG_AUTH ->
      error _ s' = None /\ inputDisabled _ (ui _ s') = false)
  /\ (error _ s = Some MSG_FORBIDDEN ->
      error _ s' = Some MSG_FORBIDDEN
      /\ inputDisabled _ (ui _ s') = inputDisabled _ (ui _ s)).
Proof.
  intros Hne Hold. cbv zeta. unfold Attributes.attributeChangedCallback.
  rewrite (sameValue_false old tok Hold).
  change (JS.eqb (js "token") (js "api-url")) with false.
  change (JS.eqb (js "token") (js "token")) with true.
  cbv iota.
  destruct tok as [|c tok]; [contradiction|].
  cbn [isSet truthy orDefault andb].
  unfold errorMentionsAuth. cbn [error setConfig].
  split; [|split].
  - destruct (error _ s) as [e|]; [destruct (includes e (js "인증"))|];
      reflexivity.
  - intros E. rewrite E.
    change (includes MSG_AUTH (js "인증")) with true. split; reflexivity.
  - intros E. rewrite E.
    change (includes MSG_FORBIDDEN (js "인증")) with false.
    split; [exact E | reflexivity].
Qed.

(** X25: A changed token, and changed context attributes, are used by the next
    submission. *)
Theorem attribute_changes_reach_next_request
    (get : jsstring -> option jsstring) (old : option jsstring)
    (v text : jsstring) (s : state) :
  v <> [] -> old <> Some v ->
  requests _ (submit text
                (attributeChangedCallback get (js "token") old (Some v) s))
  = requests _ s
      ++ [StreamRequest (streamUrl (config _ s))
            (buildChatRequest (config _ s) text) v]
  /\
  requests _ (submit text
                (attributeChangedCallback get (js "match-id") old (Some v) s))
  = requests _ s
      ++ [StreamRequest (streamUrl (config _ s))
            {| message := text;
               context_type := contextType (config _ s);
               context :=
                 match collectContextParams get with
                 | [] => None
                 | p :: ps => Some (p :: ps)
                 end |}
            (token (config _ s))].
Proof.
  intros Hne Hold. unfold Attributes.attributeChangedCallback.
  rewrite (sameValue_false old v Hold).
  destruct v as [|c v]; [contradiction|].
  split.
  - change (JS.eqb (js "token") (js "api-url")) with false.
    change (JS.eqb (js "token") (js "token")) with true.
    cbv iota. cbn [isSet truthy orDefault andb].
    destruct (errorMentionsAuth _ _); reflexivity.
  - change (JS.eqb (js "match-id") (js "api-url")) with false.
    change (JS.eqb (js "match-id") (js "token")) with false.
    change (JS.eqb (js "match-id") (js "theme")) with false.
    change (JS.eqb (js "match-id") (js "context-type")) with false.
    change (JS.eqb (js "match-id") (js "lang")) with false.
    cbv iota.
    unfold SpoChatbot.submit, buildChatRequest. cbv zeta.
    cbn [requests send config setConfig setUi setMessages setMessageCounter
         setLastFailedMessage setError contextParams withContextParams
         contextType token apiUrl].
    destruct (collectContextParams get); reflexivity.
Qed.

End SpoChatbotMore.
Section TurnFacts.

Variable ChartData : Type.
Variable JSON_parse : jsstring -> option ChartData.
Variable Date_now : N -> N.
Variable parseHTML : jsstring -> list (element ChartData).

Local Abbreviation state := (SpoChatbot.state ChartData).
Local Abbreviation submit := (SpoChatbot.submit ChartData Date_now parseHTML).
Local Abbreviation handler :=
  (SpoChatbot.handler ChartData Date_now parseHTML).
Local Abbreviation handleSend :=
  (SpoChatbot.handleSend ChartData JSON_parse Date_now parseHTML).





(** X27: A failed turn whose error text holds [401] anywhere, in the status or
    in the body of another failure status, is handled as an expired
    authentication: the input is locked and no retry is offered. *)
Theorem error_text_with_401_locks_input (s : state) (text detail : jsstring)
    (status : N) (body : option (list read_result)) :
  ok status = false ->
  includes (js "HTTP " ++ numberToString status ++ js ": " ++ detail)
           (js "401") = true ->
  let s' := handleSend text (always (Response status (Text detail) body)) s in
  error _ s' = Some MSG_AUTH
  /\ inputDisabled _ (ui _ s') = true
  /\ messagesEl _ (ui _ s')
     = messagesEl _ (ui _ (submit text s)) ++ [ErrorEl _ MSG_AUTH false]
  /\ lastFailedMessage _ s' = Some text.
Proof.
  intros Hok H401. cbv zeta.
  rewrite (handleSend_failure_status ChartData JSON_parse Date_now
             parseHTML s text detail status body Hok).
  unfold SpoChatbot.handler, handleStreamError. rewrite H401.
  repeat split.
Qed.

End TurnFacts.

(** A chunk whose rendering plants an element that matches the selector
    takes the chunks that follow: the text recorded for the turn is what
    arrived after it. *)
Example planted_element_takes_later_chunks :
  messages unit
    (SpoChatbot.handleSend unit (fun _ => None) (fun n => n)
       (sampleParser unit) (js "hi")
       (streaming
          [js "data: <p class=spo-message--assistant data-raw=>hi</p>" ++ LF;
           js "data: more" ++ LF ++ js "event: done" ++ LF
             ++ js "data: " ++ LF])
       (rendered unit sampleConfig))
  = [ {| id := js "msg-1"; msg_role := user; content := js "hi";
         timestamp := 1 |};
      {| id := js "msg-2"; msg_role := assistant; content := js "more";
         timestamp := 2 |} ].
Proof. vm_compute. reflexivity. Qed.


Lemma error_text_with_401_locks_input_witness :
  ok 500 = false
  /\ includes (js "HTTP " ++ numberToString 500 ++ js ": "
               ++ js "upstream answered 401") (js "401") = true
  /\ inputDisabled unit (ui unit
       (SpoChatbot.handleSend unit (fun _ => None) (fun n => n)
       (sampleParser unit) (js "hi")
          (always (Response 500 (Text (js "upstream answered 401")) None))
          (rendered unit sampleConfig)))
     = true.
Proof.
  split; [reflexivity|]. split; [reflexivity|].
  exact (proj1 (proj2 (error_text_with_401_locks_input unit (fun _ => None)
                  (fun n => n) (sampleParser unit) (rendered unit sampleConfig) (js "hi")
                  (js "upstream answered 401") 500 None eq_refl eq_refl))).
Defined.

Lemma retry_after_session_failure_is_idle_witness :
  SpoChatbot.connectedCallback unit sampleConfig [ThrowsApiError 500]
  = Some (SpoChatbot.initSession unit [ThrowsApiError 500]
            (rendered unit sampleConfig))
  /\ SpoChatbot.handleRetry unit (fun _ => None) (fun n => n)
       (sampleParser unit) (streaming [])
       (SpoChatbot.initSession unit [ThrowsApiError 500]
          (rendered unit sampleConfig))
     = SpoChatbot.initSession unit [ThrowsApiError 500]
         (rendered unit sampleConfig).
Proof.
  split; [reflexivity|].
  exact (proj1 (retry_after_session_failure_is_idle unit (fun _ => None)
                  (fun n => n) (sampleParser unit) sampleConfig [ThrowsApiError 500]
                  (streaming []) _ eq_refl)).
Defined.

Lemma token_change_lifts_auth_lock_witness :
  js "new" <> []
  /\ Some (js "old") <> Some (js "new")
  /\ error unit
       (SpoChatbot.initSession unit [ThrowsApiError 401]
          (rendered unit sampleConfig))
     = Some MSG_AUTH
  /\ inputDisabled unit (ui unit
       (Attributes.attributeChangedCallback unit (fun _ => None)
          (js "token") (Some (js "old")) (Some (js "new"))
          (SpoChatbot.initSession unit [ThrowsApiError 401]
             (rendered unit sampleConfig))))
     = false.
Proof.
  assert (H1 : js "new" <> []) by discriminate.
  assert (H2 : Some (js "old") <> Some (js "new")) by discriminate.
  split; [exact H1|]. split; [exact H2|]. split; [reflexivity|].
  exact (proj2 (proj1 (proj2 (token_change_lifts_auth_lock unit
           (fun _ => None) (Some (js "old")) (js "new")
           (SpoChatbot.initSession unit [ThrowsApiError 401]
              (rendered unit sampleConfig)) H1 H2)) eq_refl)).
Defined.

Lemma attribute_changes_reach_next_request_witness :
  js "new" <> []
  /\ Some (js "old") <> Some (js "new")
  /\ requests unit
       (SpoChatbot.submit unit (fun n => n) (sampleParser unit) (js "hi")
          (Attributes.attributeChangedCallback unit (fun _ => None)
             (js "token") (Some (js "old")) (Some (js "new"))
             (rendered unit sampleConfig)))
     = [StreamRequest (js "https://chat.example/api/chat/stream")
          {| message := js "hi"; context_type := js "badminton";
             context := Some [(js "match_id", js "42")] |}
          (js "new")].
Proof.
  assert (H1 : js "new" <> []) by discriminate.
  assert (H2 : Some (js "old") <> Some (js "new")) by discriminate.
  split; [exact H1|]. split; [exact H2|].
  exact (proj1 (attribute_changes_reach_next_request unit (fun n => n)
           (sampleParser unit) (fun _ => None) (Some (js "old")) (js "new") (js "hi")
           (rendered unit sampleConfig) H1 H2)).
Defined.

Lemma collectContextParams_entries_witness :
  In (js "match_id", js "42")
     (Attributes.collectContextParams Attributes.sampleAttributes).
Proof.
  apply (proj2 (collectContextParams_entries Attributes.sampleAttributes
                  (js "match_id") (js "42"))).
  exists (js "match-id"). split; [left; reflexivity|].
  split; [reflexivity|]. split; [discriminate | reflexivity].
Defined.

Lemma context_omitted_iff_no_attribute_witness :
  context (buildChatRequest
             (Attributes.withContextParams
                (Attributes.collectContextParams (fun _ => None))
                sampleConfig) (js "hi")) = None.
Proof.
  apply (proj2 (context_omitted_iff_no_attribute sampleConfig
                  (fun _ => None) (js "hi"))).
  intros attr _. reflexivity.
Defined.

Lemma reset_clears_local_state_witness :
  inputDisabled unit (ui unit
    (SpoChatbot.initSession unit [ThrowsApiError 401]
       (rendered unit sampleConfig))) = true
  /\ inputDisabled unit (ui unit
       (SpoChatbot.handleReset unit [Resolves (js "s-2")]
          (SpoChatbot.initSession unit [ThrowsApiError 401]
             (rendered unit sampleConfig)))) = true.
Proof.
  split; [reflexivity|].
  apply (reset_clears_local_state unit [Resolves (js "s-2")]
           (SpoChatbot.initSession unit [ThrowsApiError 401]
              (rendered unit sampleConfig))).
  reflexivity.
Defined.
